(** * Gas price monitor (src/get_gas_prices.py) — shallow embedding

    Modelling conventions.
    - Python ints are [Z].  Python floats (the jitter draw, [total_wait],
      [wait_time], the gwei values) are exact rationals [Q]; rounding of
      IEEE doubles is not modelled.
    - [random.uniform(0.8, 1.2)] is an explicit draw passed in by the
      caller (one draw per backoff, indexed by the attempt number).
    - The web3 adapter is an oracle: for attempt [a], the pair of calls
      [web3.eth.gas_price] / [web3.eth.get_block("pending")] either
      yields a gas price and a block, or raises an exception.
    - Logging, printing and [time.sleep] are recorded as events in an
      output trace. *)

From Stdlib Require Import ZArith QArith Qminmax List Bool Ascii String Lia Lqa.
Import ListNotations.

Open Scope Z_scope.

(** ** Configuration (class [Config]) *)

Record Config := mkConfig {
  PROVIDER_URL : string;
  RETRY_LIMIT : Z;
  RETRY_BASE_DELAY : Z;
  MAX_RETRY_DELAY : Z;
  MAX_TOTAL_BACKOFF : Z;
  MONITOR_INTERVAL : Z;
  OUTPUT_JSON : bool
}.

(** The defaults of [Config] when no environment variable is set. *)
Definition default_config : Config := {|
  PROVIDER_URL := "https://mainnet.base.org/v1/infura/YOUR_PROJECT_ID";
  RETRY_LIMIT := 5;
  RETRY_BASE_DELAY := 1;
  MAX_RETRY_DELAY := 30;
  MAX_TOTAL_BACKOFF := 120;
  MONITOR_INTERVAL := 10;
  OUTPUT_JSON := false
|}.

(** ** Exceptions

    The classes the code names, plus a catch-all for every other subclass
    of [Exception], plus the two standard [BaseException] subclasses that
    are not [Exception]s. *)
Inductive exn :=
| Timeout                  (* requests.exceptions.Timeout *)
| TimeExhausted            (* web3.exceptions.TimeExhausted *)
| ProviderConnectionError  (* web3.exceptions.ProviderConnectionError *)
| RequestException         (* requests.exceptions.RequestException *)
| ConnectionError          (* builtin, raised by get_web3 *)
| ValueError               (* builtin, raised by from_wei *)
| OtherException (tag : Z) (* any other subclass of Exception *)
| KeyboardInterrupt        (* BaseException, not Exception *)
| SystemExit.              (* BaseException, not Exception *)

(** [except (Timeout, TimeExhausted, ProviderConnectionError, RequestException)] *)
Definition is_net_err (e : exn) : bool :=
  match e with
  | Timeout | TimeExhausted | ProviderConnectionError | RequestException => true
  | _ => false
  end.

(** [except Exception] *)
Definition is_Exception (e : exn) : bool :=
  match e with
  | KeyboardInterrupt | SystemExit => false
  | _ => true
  end.

(** ** Logging and output events *)

Inductive level := DEBUG | INFO | WARNING | ERROR | CRITICAL.

(** The pending block, as far as the code reads it. *)
Record block := mkBlock {
  baseFeePerGas : option Z;
  number : option Z
}.

(** The result dict of [fetch_gas_prices]. *)
Record sample := mkSample {
  gas_price_gwei : Q;
  base_fee_gwei : option Q;
  priority_fee_gwei : option Q;
  block_number : option Z
}.

Inductive msg :=
| MsgStarted                 (* "Gas price monitor started ..." *)
| MsgUrlNotConfigured        (* "Provider URL not configured properly ..." *)
| MsgConnectionEstablished   (* "Web3 connection established successfully." *)
| MsgConnected               (* "Connected to provider: ..." *)
| MsgRetrying (attempt : nat)
| MsgNetwork (attempt : nat) (retries : Z)
| MsgUnexpected (attempt : nat) (retries : Z)
| MsgFailed (count : Z)      (* "Failed to fetch gas prices after %d attempts." *)
| MsgGas (s : sample)        (* "Gas [Gwei] total=... base=... priority=..." *)
| MsgNoData                  (* "No gas price data retrieved in this cycle." *)
| MsgCycleError (e : exn)    (* "Error during monitoring cycle: ..." *)
| MsgSignal (signum : Z)     (* "Termination signal received ..." *)
| MsgStopped.                (* "Gas price monitoring stopped." *)

Inductive event :=
| Log (l : level) (m : msg)
| Print (s : sample)         (* print(json.dumps(result)) *)
| Sleep (d : Q)              (* time.sleep(d) *)
| Query (attempt : nat)      (* web3.eth.gas_price / get_block("pending") *)
| ConnectAttempt.            (* w3.is_connected() in get_web3 *)

(** ** The web3 adapter *)

Inductive query :=
| QOk (gas_price_wei : Z) (blk : block)
| QRaise (e : exn).

(** The value of [v] wei in gwei: the [Decimal] quotient v / 10^9. *)
Definition to_gwei (v : Z) : Q := v # 1000000000.

(** [MAX_WEI = 2**256 - 1] of [eth_utils]. *)
Definition MAX_WEI : Z := 2 ^ 256 - 1.

(** [web3.from_wei(v, "gwei")]: [0] for [0], [ValueError] outside
    [1 .. 2**256 - 1], the quotient otherwise. *)
Definition from_wei (v : Z) : exn + Q :=
  if Z.eqb v 0 then inr 0%Q
  else if (v <? 0) || (MAX_WEI <? v) then inl ValueError
  else inr (to_gwei v).

(** Python truthiness of an int. *)
Definition truthy (z : Z) : bool := negb (Z.eqb z 0).

(** [block.get("baseFeePerGas", 0)] *)
Definition base_fee_of (blk : block) : Z :=
  match baseFeePerGas blk with Some b => b | None => 0 end.

(** [float(web3.from_wei(v, "gwei")) if c else None] *)
Definition from_wei_if (c : bool) (v : Z) : exn + option Q :=
  if c then match from_wei v with inl e => inl e | inr x => inr (Some x) end
  else inr None.

(** Lines 77-86 of [fetch_gas_prices]: the result dict, its entries
    evaluated in order; a [ValueError] of [from_wei] propagates. *)
Definition make_sample (gas_price_wei : Z) (blk : block) : exn + sample :=
  let base_fee_wei := base_fee_of blk in
  let priority_fee_wei :=
    if truthy base_fee_wei then Some (gas_price_wei - base_fee_wei) else None in
  match from_wei gas_price_wei with
  | inl e => inl e
  | inr gas =>
    match from_wei_if (truthy base_fee_wei) base_fee_wei with
    | inl e => inl e
    | inr base =>
      match match priority_fee_wei with
            | Some p => from_wei_if (truthy p) p
            | None => inr None
            end with
      | inl e => inl e
      | inr prio =>
        inr {| gas_price_gwei := gas; base_fee_gwei := base;
               priority_fee_gwei := prio; block_number := number blk |}
      end
    end
  end.

(** Lines 88-97: either the JSON line or the info log line. *)
Definition emit (cfg : Config) (s : sample) : event :=
  if OUTPUT_JSON cfg then Print s else Log INFO (MsgGas s).

(** ** [exponential_backoff] *)

Definition backoff_delay (cfg : Config) (attempt : nat) : Z :=
  Z.min (RETRY_BASE_DELAY cfg * 2 ^ Z.of_nat attempt) (MAX_RETRY_DELAY cfg).

Definition wait_time (cfg : Config) (jitter : Q) (attempt : nat) (total_wait : Q) : Q :=
  Qmin (inject_Z (backoff_delay cfg attempt) * jitter)%Q
       (inject_Z (MAX_TOTAL_BACKOFF cfg) - total_wait)%Q.

(** Returns [total_wait + wait_time] and the events of the call. *)
Definition exponential_backoff (cfg : Config) (jitter : Q) (attempt : nat) (total_wait : Q)
  : Q * list event :=
  let w := wait_time cfg jitter attempt total_wait in
  ((total_wait + w)%Q,
   if Qlt_le_dec 0 w then [Log DEBUG (MsgRetrying attempt); Sleep w] else []).

(** ** [fetch_gas_prices] *)

(** The [try] body of one attempt up to the output: the two adapter
    calls, then the dict of lines 80-86. *)
Definition attempt_outcome (qa : query) : exn + sample :=
  match qa with
  | QOk g blk => make_sample g blk
  | QRaise e => inl e
  end.

Inductive fresult :=
| FReturn (r : option sample)
| FRaise (e : exn).

Section Fetch.
Variable cfg : Config.
Variable q : nat -> query.      (* the adapter's behaviour at each attempt *)
Variable draw : nat -> Q.       (* random.uniform(0.8, 1.2) at each backoff *)
Variable retries : Z.

(** The [for attempt in range(retries)] loop from [attempt] on, with
    [fuel] iterations left. *)
Fixpoint fetch_loop (attempt : nat) (fuel : nat) (total_wait : Q) : fresult * list event :=
  match fuel with
  | O => (FReturn None, [Log ERROR (MsgFailed retries)])
  | S fuel' =>
    match attempt_outcome (q attempt) with
    | inr r => (FReturn (Some r), [Query attempt; emit cfg r])
    | inl e =>
      if is_net_err e || is_Exception e then
        let handler :=
          if is_net_err e then Log WARNING (MsgNetwork attempt retries)
          else Log ERROR (MsgUnexpected attempt retries) in
        let '(tw, evs) := exponential_backoff cfg (draw attempt) attempt total_wait in
        if Qle_bool (inject_Z (MAX_TOTAL_BACKOFF cfg)) tw then
          (FReturn None, Query attempt :: handler :: evs ++ [Log ERROR (MsgFailed retries)])
        else
          let '(r, rest) := fetch_loop (S attempt) fuel' tw in
          (r, Query attempt :: handler :: evs ++ rest)
      else (FRaise e, [Query attempt])
    end
  end.

End Fetch.

Definition fetch_gas_prices (cfg : Config) (q : nat -> query) (draw : nat -> Q) (retries : Z)
  : fresult * list event :=
  fetch_loop cfg q draw retries 0 (Z.to_nat retries) 0.

(** ** [get_web3] *)

(** [not url or "YOUR_PROJECT_ID" in url] *)
Definition url_placeholder (url : string) : bool :=
  String.eqb url "" ||
  match String.index 0 "YOUR_PROJECT_ID" url with Some _ => true | None => false end.

(** A Web3 instance, identified by a number. *)
Definition conn := nat.

(** [connect] is the outcome of [w3.is_connected()]: [Some c] when the
    provider answers, [None] when it does not. *)
Definition get_web3 (url : string) (connect : option conn) : (exn + conn) * list event :=
  let pre := if url_placeholder url then [Log WARNING MsgUrlNotConfigured] else [] in
  match connect with
  | None => (inl ConnectionError, pre ++ [ConnectAttempt])
  | Some c => (inr c, pre ++ [ConnectAttempt; Log DEBUG MsgConnectionEstablished])
  end.

(** ** [monitor_gas_prices] as a small-step machine

    The program counter follows the Python code of the loop; a signal
    handler ([GracefulKiller._handler]) may run between any two steps. *)

Inductive pc :=
| PWhile              (* while not killer.kill_now *)
| PConnect            (* if web3 is None: web3 = get_web3(...) *)
| PFetch              (* if fetch_gas_prices(web3) is None: ... *)
| PSleep (k : nat)    (* the interval loop, k iterations left *)
| PExited             (* after logger.info("Gas price monitoring stopped.") *)
| PAborted (e : exn). (* an exception escaped monitor_gas_prices *)

Record mstate := mkState {
  m_pc : pc;
  m_web3 : option conn;
  kill_now : bool;
  m_log : list event
}.

(** What the outside world does during one step: the outcome of a
    connection attempt, the adapter's answers and the jitter draws. *)
Record world := mkWorld {
  w_connect : option conn;
  w_query : nat -> query;
  w_draw : nat -> Q
}.

Inductive input :=
| IStep (w : world)
| ISignal (signum : Z).

Section Monitor.
Variable cfg : Config.
Variable interval : Z.

Definition set_pc (s : mstate) (p : pc) (evs : list event) : mstate :=
  {| m_pc := p; m_web3 := m_web3 s; kill_now := kill_now s; m_log := m_log s ++ evs |}.

Definition set_web3 (s : mstate) (p : pc) (w3 : option conn) (evs : list event) : mstate :=
  {| m_pc := p; m_web3 := w3; kill_now := kill_now s; m_log := m_log s ++ evs |}.

Definition sleep_loop : pc := PSleep (Z.to_nat interval).

Definition step (w : world) (s : mstate) : mstate :=
  match m_pc s with
  | PWhile =>
    if kill_now s then set_pc s PExited [Log INFO MsgStopped]
    else set_pc s PConnect []
  | PConnect =>
    match m_web3 s with
    | Some _ => set_pc s PFetch []
    | None =>
      match get_web3 (PROVIDER_URL cfg) (w_connect w) with
      | (inl e, evs) =>
        (* except Exception: logger.exception(...); web3 = None *)
        set_web3 s sleep_loop None (evs ++ [Log ERROR (MsgCycleError e)])
      | (inr c, evs) =>
        set_web3 s PFetch (Some c) (evs ++ [Log INFO MsgConnected])
      end
    end
  | PFetch =>
    match fetch_gas_prices cfg (w_query w) (w_draw w) (RETRY_LIMIT cfg) with
    | (FReturn None, evs) => set_pc s sleep_loop (evs ++ [Log WARNING MsgNoData])
    | (FReturn (Some _), evs) => set_pc s sleep_loop evs
    | (FRaise e, evs) =>
      if is_Exception e
      then set_web3 s sleep_loop None (evs ++ [Log ERROR (MsgCycleError e)])
      else set_pc s (PAborted e) evs
    end
  | PSleep O => set_pc s PWhile []
  | PSleep (S k) =>
    if kill_now s then set_pc s PWhile [] else set_pc s (PSleep k) [Sleep 1]
  | PExited | PAborted _ => s
  end.

(** [GracefulKiller._handler] *)
Definition handler (signum : Z) (s : mstate) : mstate :=
  {| m_pc := m_pc s; m_web3 := m_web3 s; kill_now := true;
     m_log := m_log s ++ [Log INFO (MsgSignal signum)] |}.

Definition exec (s : mstate) (i : input) : mstate :=
  match i with
  | IStep w => step w s
  | ISignal n => handler n s
  end.

Definition run (s : mstate) (sched : list input) : mstate := fold_left exec sched s.

End Monitor.

(** The state right after [logger.info("Gas price monitor started ...")],
    with a fresh [GracefulKiller]. *)
Definition init : mstate :=
  {| m_pc := PWhile; m_web3 := None; kill_now := false; m_log := [Log INFO MsgStarted] |}.

(** ** Observations on traces *)

Definition is_query (ev : event) : bool :=
  match ev with Query _ => true | _ => false end.
Definition is_sleep (ev : event) : bool :=
  match ev with Sleep _ => true | _ => false end.
Definition is_stopped (ev : event) : bool :=
  match ev with Log _ MsgStopped => true | _ => false end.
Definition is_net_warning (ev : event) : bool :=
  match ev with Log WARNING (MsgNetwork _ _) => true | _ => false end.
Definition is_critical (ev : event) : bool :=
  match ev with Log CRITICAL _ => true | _ => false end.

(** Number of adapter attempts, of sleeps, of "stopped" lines. *)
Definition queries (evs : list event) : nat := List.length (filter is_query evs).
Definition sleeps (evs : list event) : nat := List.length (filter is_sleep evs).
Definition count_stopped (evs : list event) : nat := List.length (filter is_stopped evs).

(** Total time slept. *)
Fixpoint slept (evs : list event) : Q :=
  match evs with
  | [] => 0%Q
  | Sleep d :: rest => (d + slept rest)%Q
  | _ :: rest => slept rest
  end.

(** [total_wait] after [n] failed attempts starting at attempt [a]. *)
Fixpoint total_after (cfg : Config) (draw : nat -> Q) (a : nat) (n : nat) (tw : Q) : Q :=
  match n with
  | O => tw
  | S n' => total_after cfg draw (S a) n' (fst (exponential_backoff cfg (draw a) a tw))
  end.

(** ** Concrete inputs used below *)

Definition gwei (n : Z) : Z := n * 1000000000.
Definition unit_draw : nat -> Q := fun _ => 1%Q.
Definition always_timeout : nat -> query := fun _ => QRaise Timeout.
Definition always_interrupt : nat -> query := fun _ => QRaise KeyboardInterrupt.
Definition equal_fees_block : block := mkBlock (Some (gwei 30)) (Some 1).
Definition answer_equal_fees : nat -> query := fun _ => QOk (gwei 30) equal_fees_block.
Definition below_base_fee : nat -> query :=
  fun _ => QOk (gwei 20) (mkBlock (Some (gwei 30)) (Some 1)).
Definition fail_twice_then_ok : nat -> query :=
  fun i => if Nat.ltb i 2 then QRaise Timeout
           else QOk (gwei 50) (mkBlock (Some (gwei 30)) (Some 1)).

(** [MAX_TOTAL_BACKOFF=1] in the environment. *)
Definition budget_one_config : Config := {|
  PROVIDER_URL := PROVIDER_URL default_config;
  RETRY_LIMIT := 5; RETRY_BASE_DELAY := 1; MAX_RETRY_DELAY := 30;
  MAX_TOTAL_BACKOFF := 1; MONITOR_INTERVAL := 10; OUTPUT_JSON := false
|}.

(** [RETRY_BASE_DELAY=3] in the environment. *)
Definition base3_config : Config := {|
  PROVIDER_URL := PROVIDER_URL default_config;
  RETRY_LIMIT := 5; RETRY_BASE_DELAY := 3; MAX_RETRY_DELAY := 30;
  MAX_TOTAL_BACKOFF := 120; MONITOR_INTERVAL := 10; OUTPUT_JSON := false
|}.

(** Worlds for the monitor loop: a provider that does not answer, and a
    provider that answers [is_connected()] but whose calls all time out. *)
Definition down_world : world := mkWorld None always_timeout unit_draw.
Definition flaky_world : world := mkWorld (Some 7%nat) always_timeout unit_draw.

(** An input whose adapter raises only [Exception]s.  Inside the program
    SIGINT/SIGTERM go to [GracefulKiller._handler], so the adapter never
    sees a [KeyboardInterrupt]. *)
Definition wb_input (i : input) : Prop :=
  match i with
  | IStep w => forall a e, w_query w a = QRaise e -> is_Exception e = true
  | ISignal _ => True
  end.

Definition is_step (i : input) : bool := match i with IStep _ => true | ISignal _ => false end.
Definition steps_in (l : list input) : nat := List.length (filter is_step l).

Definition pc_exited (p : pc) : bool := match p with PExited => true | _ => false end.

(** Steps left before [PExited] once the stop flag is set. *)
Definition dist (p : pc) : nat :=
  match p with
  | PWhile => 1 | PConnect => 4 | PFetch => 3 | PSleep _ => 2
  | PExited | PAborted _ => 0
  end.

(** One cycle in which [get_web3] fails: its inputs and its log. *)
Definition cycle_inputs (interval : Z) (w : world) : list input :=
  IStep w :: IStep w :: repeat (IStep w) (Z.to_nat interval) ++ [IStep w].

Definition failed_cycle_log (cfg : Config) (interval : Z) : list event :=
  snd (get_web3 (PROVIDER_URL cfg) None) ++ [Log ERROR (MsgCycleError ConnectionError)]
  ++ repeat (Sleep 1) (Z.to_nat interval).

(** Invariant: the loop has not aborted, and it has logged "stopped"
    exactly when it has exited. *)
Definition inv (s : mstate) : Prop :=
  (forall e, m_pc s <> PAborted e) /\
  count_stopped (m_log s) = if pc_exited (m_pc s) then 1%nat else 0%nat.

(** ** Environment overrides of [Config] (ASCII values) *)

(** Python's [str.isspace] on an ASCII character: 9-13 and 28-32. *)
Definition is_space (c : Ascii.ascii) : bool :=
  let n := Ascii.nat_of_ascii c in
  ((9 <=? n)%nat && (n <=? 13)%nat) || ((28 <=? n)%nat && (n <=? 32)%nat).

Fixpoint drop_space (l : list Ascii.ascii) : list Ascii.ascii :=
  match l with
  | [] => []
  | c :: r => if is_space c then drop_space r else l
  end.

(** [str.strip()] *)
Definition strip (s : string) : string :=
  string_of_list_ascii (rev (drop_space (rev (drop_space (list_ascii_of_string s))))).

(** [os.getenv("PROVIDER_URL", "").strip() or "https://...YOUR_PROJECT_ID"] *)
Definition resolve_provider_url (env : option string) : string :=
  let v := strip (match env with Some s => s | None => "" end) in
  if String.eqb v "" then PROVIDER_URL default_config else v.

(** [str.lower()] on an ASCII character: only A-Z change. *)
Definition lower_char (c : Ascii.ascii) : Ascii.ascii :=
  let n := Ascii.nat_of_ascii c in
  if ((65 <=? n)%nat && (n <=? 90)%nat) then Ascii.ascii_of_nat (n + 32) else c.

Fixpoint lower (s : string) : string :=
  match s with
  | EmptyString => EmptyString
  | String c r => String (lower_char c) (lower r)
  end.

(** [os.getenv("OUTPUT_JSON", "false").lower() == "true"] *)
Definition resolve_output_json (env : option string) : bool :=
  String.eqb (lower (match env with Some s => s | None => "false" end)) "true".

(** The sixteen upper/lower case spellings of "true". *)
Definition case_variants (c : Ascii.ascii) : list Ascii.ascii :=
  [c; Ascii.ascii_of_nat (Ascii.nat_of_ascii c - 32)].
Definition true_spellings : list string :=
  flat_map (fun a => flat_map (fun b => flat_map (fun c => map (fun d =>
    String a (String b (String c (String d EmptyString))))
    (case_variants "e"%char)) (case_variants "u"%char)) (case_variants "r"%char)) (case_variants "t"%char).

(** ** More observations on traces *)

Definition is_signal_line (ev : event) : bool :=
  match ev with Log _ (MsgSignal _) => true | _ => false end.
Definition is_output (ev : event) : bool :=
  match ev with Print _ | Log _ (MsgGas _) => true | _ => false end.
Definition is_failed_line (ev : event) : bool :=
  match ev with Log _ (MsgFailed _) => true | _ => false end.
Definition count_ev (f : event -> bool) (evs : list event) : nat := List.length (filter f evs).

(** The events [fetch_gas_prices] can write. *)
Definition is_fetch_event (ev : event) : bool :=
  match ev with
  | Query _ | Sleep _ | Print _ => true
  | Log _ m =>
    match m with
    | MsgRetrying _ | MsgNetwork _ _ | MsgUnexpected _ _ | MsgFailed _ | MsgGas _ => true
    | _ => false
    end
  | ConnectAttempt => false
  end.

Definition is_signal (i : input) : bool := negb (is_step i).

(** The "Unexpected error" line of the [except Exception] branch. *)
Definition is_unexpected_line (ev : event) : bool :=
  match ev with Log _ (MsgUnexpected _ _) => true | _ => false end.

(** The arguments [make_sample] can convert: no [from_wei] call raises. *)
Definition wei_ok (g b : Z) : Prop :=
  0 <= g <= MAX_WEI /\ 0 <= b <= MAX_WEI /\ (b = 0 \/ b <= g).

(** Program points where a set stop flag is seen before any further call:
    the [while] test and the interval loop. *)
Definition stop_ready (p : pc) : bool :=
  match p with PWhile | PSleep _ | PExited => true | _ => false end.

(** ** Lemmas on [fetch_gas_prices] *)

Lemma to_gwei_sub (g b : Z) : to_gwei (g - b) == (to_gwei g - to_gwei b)%Q.
Proof.
  unfold to_gwei, Qeq, Qminus, Qplus, Qopp; simpl. nia.
Qed.

Lemma MAX_WEI_pos : 0 < MAX_WEI.
Proof. vm_compute. reflexivity. Qed.

(** Case analysis on the range tests of the [from_wei] calls of
    [make_sample]. *)
Ltac sample_cases :=
  pose proof MAX_WEI_pos;
  repeat first
    [ progress cbn [negb orb andb gas_price_gwei base_fee_gwei priority_fee_gwei block_number]
    | match goal with
      | |- context [Z.eqb ?x ?y] => destruct (Z.eqb_spec x y)
      | |- context [Z.ltb ?x ?y] => destruct (Z.ltb_spec x y)
      end ];
  repeat split;
  first [ reflexivity | lia | apply to_gwei_sub
        | (unfold to_gwei, Qeq; cbn [Qnum Qden]; lia) | idtac ].

Lemma filter_app_length (f : event -> bool) (l1 l2 : list event) :
  List.length (filter f (l1 ++ l2)) = (List.length (filter f l1) + List.length (filter f l2))%nat.
Proof. rewrite filter_app, length_app; reflexivity. Qed.

Lemma backoff_events (cfg : Config) (j : Q) (a : nat) (tw : Q) :
  snd (exponential_backoff cfg j a tw) = [] \/
  snd (exponential_backoff cfg j a tw)
  = [Log DEBUG (MsgRetrying a); Sleep (wait_time cfg j a tw)].
Proof.
  unfold exponential_backoff; simpl.
  destruct (Qlt_le_dec 0 (wait_time cfg j a tw)); auto.
Qed.

Lemma backoff_no_query (cfg : Config) (j : Q) (a : nat) (tw : Q) :
  queries (snd (exponential_backoff cfg j a tw)) = O /\
  count_stopped (snd (exponential_backoff cfg j a tw)) = O.
Proof. destruct (backoff_events cfg j a tw) as [-> | ->]; split; reflexivity. Qed.

Lemma outcome_raise (qa : query) (e : exn) : qa = QRaise e -> attempt_outcome qa = inl e.
Proof. intros ->. reflexivity. Qed.

(** [make_sample] fails only with the [ValueError] of [from_wei]. *)
Lemma make_sample_error (g : Z) (blk : block) (e : exn) :
  make_sample g blk = inl e -> e = ValueError.
Proof.
  assert (Hf : forall v e, from_wei v = inl e -> e = ValueError).
  { intros v e' H. unfold from_wei in H.
    destruct (Z.eqb v 0); [discriminate|].
    destruct ((v <? 0) || (MAX_WEI <? v)); congruence. }
  assert (Hi : forall c v e, from_wei_if c v = inl e -> e = ValueError).
  { intros c v e' H. unfold from_wei_if in H. destruct c; [|discriminate].
    destruct (from_wei v) eqn:E; [|discriminate]. injection H as <-. exact (Hf v _ E). }
  unfold make_sample. intros H.
  destruct (from_wei g) eqn:E1; [injection H as <-; exact (Hf g _ E1)|].
  destruct (from_wei_if (truthy (base_fee_of blk)) (base_fee_of blk)) eqn:E2;
    [injection H as <-; exact (Hi _ _ _ E2)|].
  destruct (truthy (base_fee_of blk)).
  - destruct (from_wei_if (truthy (g - base_fee_of blk)) (g - base_fee_of blk)) eqn:E3;
      [injection H as <-; exact (Hi _ _ _ E3)|discriminate].
  - discriminate.
Qed.

Lemma make_sample_priority (g : Z) (blk : block) (s : sample) :
  make_sample g blk = inr s ->
  priority_fee_gwei s =
  if truthy (base_fee_of blk) && truthy (g - base_fee_of blk)
  then Some (to_gwei (g - base_fee_of blk)) else None.
Proof.
  unfold make_sample. intros H.
  destruct (from_wei g); [discriminate|].
  destruct (from_wei_if (truthy (base_fee_of blk)) (base_fee_of blk)); [discriminate|].
  destruct (truthy (base_fee_of blk)); cbn [andb].
  - unfold from_wei_if in H. destruct (truthy (g - base_fee_of blk)) eqn:Ht.
    + unfold from_wei in H. destruct (Z.eqb (g - base_fee_of blk) 0) eqn:E0.
      * unfold truthy in Ht. rewrite E0 in Ht. discriminate.
      * destruct ((g - base_fee_of blk <? 0) || (MAX_WEI <? g - base_fee_of blk));
          [discriminate|]. injection H as <-. reflexivity.
    + injection H as <-. reflexivity.
  - injection H as <-. reflexivity.
Qed.

Section FetchFacts.
Variables (cfg : Config) (q : nat -> query) (draw : nat -> Q) (retries : Z).

Abbreviation loop := (fetch_loop cfg q draw retries).

(** Unfolding of one failing iteration. *)
Lemma fetch_loop_fail (a f : nat) (tw : Q) (e : exn) :
  attempt_outcome (q a) = inl e -> is_Exception e = true ->
  loop a (S f) tw =
  let handler := if is_net_err e then Log WARNING (MsgNetwork a retries)
                 else Log ERROR (MsgUnexpected a retries) in
  let tw' := fst (exponential_backoff cfg (draw a) a tw) in
  let evs := snd (exponential_backoff cfg (draw a) a tw) in
  if Qle_bool (inject_Z (MAX_TOTAL_BACKOFF cfg)) tw'
  then (FReturn None, Query a :: handler :: evs ++ [Log ERROR (MsgFailed retries)])
  else (fst (loop (S a) f tw'), Query a :: handler :: evs ++ snd (loop (S a) f tw')).
Proof.
  intros Hq He. cbn [fetch_loop]. rewrite Hq, He, orb_true_r.
  destruct (exponential_backoff cfg (draw a) a tw) as [tw' evs]; cbn [fst snd].
  destruct (Qle_bool (inject_Z (MAX_TOTAL_BACKOFF cfg)) tw'); [reflexivity|].
  destruct (loop (S a) f tw'); reflexivity.
Qed.

(** Only a [BaseException] that is not an [Exception] leaves the loop,
    and it is one the adapter raised. *)
Lemma fetch_loop_raise (a f : nat) (tw : Q) :
  match fst (loop a f tw) with
  | FRaise e => is_Exception e = false /\ exists a', q a' = QRaise e
  | FReturn _ => True
  end.
Proof.
  revert a tw; induction f as [|f IH]; intros a tw; cbn [fetch_loop]; [exact I|].
  destruct (attempt_outcome (q a)) as [e|r] eqn:Ho; cbn [fst]; [|exact I].
  assert (Hq : is_Exception e = false -> q a = QRaise e).
  { intros Hne. destruct (q a) as [g blk|e'] eqn:Hq; cbn [attempt_outcome] in Ho.
    - rewrite (make_sample_error g blk e Ho) in Hne. discriminate.
    - congruence. }
  destruct (is_net_err e || is_Exception e) eqn:He.
  - destruct (exponential_backoff cfg (draw a) a tw) as [tw' evs].
    destruct (Qle_bool (inject_Z (MAX_TOTAL_BACKOFF cfg)) tw'); [exact I|].
    specialize (IH (S a) tw').
    destruct (loop (S a) f tw') as [r rest]; exact IH.
  - apply orb_false_iff in He as [_ He]. split; [exact He | exists a; exact (Hq He)].
Qed.

(** A returned sample is [make_sample] of a successful query. *)
Lemma fetch_loop_sample (a f : nat) (tw : Q) (s : sample) :
  fst (loop a f tw) = FReturn (Some s) ->
  exists a' g blk, q a' = QOk g blk /\ make_sample g blk = inr s.
Proof.
  revert a tw; induction f as [|f IH]; intros a tw H; cbn [fetch_loop] in H; [discriminate|].
  destruct (attempt_outcome (q a)) as [e|r] eqn:Ho; cbn [fst] in H.
  2:{ injection H as <-. destruct (q a) as [g blk|e] eqn:Hq; [|discriminate].
      exists a, g, blk; auto. }
  - destruct (is_net_err e || is_Exception e); [|discriminate].
    destruct (exponential_backoff cfg (draw a) a tw) as [tw' evs].
    destruct (Qle_bool (inject_Z (MAX_TOTAL_BACKOFF cfg)) tw'); [discriminate|].
    destruct (loop (S a) f tw') as [r rest] eqn:Hl; simpl in H; subst r.
    apply (IH (S a) tw'). rewrite Hl; reflexivity.
Qed.

Lemma fetch_loop_no_stopped (a f : nat) (tw : Q) :
  count_stopped (snd (loop a f tw)) = O.
Proof.
  revert a tw; induction f as [|f IH]; intros a tw; cbn [fetch_loop]; [reflexivity|].
  destruct (attempt_outcome (q a)) as [e|r]; cbn [snd].
  2:{ unfold emit; destruct (OUTPUT_JSON cfg); reflexivity. }
  - destruct (is_net_err e || is_Exception e); [|reflexivity].
    pose proof (backoff_no_query cfg (draw a) a tw) as [_ Hb].
    destruct (exponential_backoff cfg (draw a) a tw) as [tw' evs]; simpl in Hb.
    assert (Hh : is_stopped (if is_net_err e then Log WARNING (MsgNetwork a retries)
                             else Log ERROR (MsgUnexpected a retries)) = false)
      by (destruct (is_net_err e); reflexivity).
    destruct (Qle_bool (inject_Z (MAX_TOTAL_BACKOFF cfg)) tw').
    + unfold count_stopped in *; simpl; rewrite Hh, filter_app_length, Hb; reflexivity.
    + specialize (IH (S a) tw').
      destruct (loop (S a) f tw') as [r rest]; simpl in *.
      unfold count_stopped in *; simpl; rewrite Hh, filter_app_length, Hb, IH; reflexivity.
Qed.

End FetchFacts.

Lemma last_app_cons (l r : list event) (x d : event) :
  last (l ++ x :: r) d = last (x :: r) d.
Proof.
  induction l as [|y l IH]; [reflexivity|].
  rewrite <- app_comm_cons. simpl. rewrite IH.
  destruct l; simpl; [reflexivity|]. destruct (l ++ x :: r) eqn:E; [|reflexivity].
  destruct l; discriminate.
Qed.

Lemma wait_time_pos (cfg : Config) (j : Q) (a : nat) (tw : Q) :
  0 < RETRY_BASE_DELAY cfg -> 0 < MAX_RETRY_DELAY cfg -> (0 < j)%Q ->
  (tw < inject_Z (MAX_TOTAL_BACKOFF cfg))%Q ->
  (0 < wait_time cfg j a tw)%Q.
Proof.
  intros Hb Hm Hj Ht. unfold wait_time.
  apply Q.min_glb_lt; [|lra].
  apply Qmult_lt_0_compat; [|exact Hj].
  change 0%Q with (inject_Z 0). rewrite <- Zlt_Qlt.
  unfold backoff_delay. apply Z.min_glb_lt; [|exact Hm].
  apply Z.mul_pos_pos; [exact Hb|]. apply Z.pow_pos_nonneg; lia.
Qed.

Lemma backoff_sleeps_once (cfg : Config) (j : Q) (a : nat) (tw : Q) :
  (0 < wait_time cfg j a tw)%Q ->
  snd (exponential_backoff cfg j a tw)
  = [Log DEBUG (MsgRetrying a); Sleep (wait_time cfg j a tw)].
Proof.
  intros H. unfold exponential_backoff; simpl.
  destruct (Qlt_le_dec 0 (wait_time cfg j a tw)) as [_|H']; [reflexivity|lra].
Qed.

Lemma handler_not_query_sleep (e : exn) (a : nat) (retries : Z) :
  let h := if is_net_err e then Log WARNING (MsgNetwork a retries)
           else Log ERROR (MsgUnexpected a retries) in
  is_query h = false /\ is_sleep h = false.
Proof. destruct (is_net_err e); split; reflexivity. Qed.

Section FetchRetry.
Variables (cfg : Config) (q : nat -> query) (draw : nat -> Q) (retries : Z).

Abbreviation loop := (fetch_loop cfg q draw retries).
Abbreviation MAXQ := (inject_Z (MAX_TOTAL_BACKOFF cfg)).

(** k failures then a success, with the budget never reached. *)
Lemma fetch_loop_first_success (g : Z) (blk : block) (s : sample) (k : nat) :
  0 < RETRY_BASE_DELAY cfg -> 0 < MAX_RETRY_DELAY cfg -> (forall i, 0 < draw i)%Q ->
  forall a f tw,
  (k < f)%nat ->
  (forall i, (i < k)%nat -> exists e, q (a + i)%nat = QRaise e /\ is_Exception e = true) ->
  q (a + k)%nat = QOk g blk -> make_sample g blk = inr s ->
  (forall i, (i < k)%nat -> total_after cfg draw a (S i) tw < MAXQ)%Q ->
  (tw < MAXQ)%Q ->
  fst (loop a f tw) = FReturn (Some s) /\
  sleeps (snd (loop a f tw)) = k.
Proof.
  intros Hb Hm Hd. induction k as [|k IH]; intros a f tw Hf Hfail Hok Hs Htot Htw.
  - destruct f as [|f]; [lia|]. rewrite Nat.add_0_r in Hok.
    cbn [fetch_loop]. rewrite Hok. cbn [attempt_outcome]. rewrite Hs. unfold emit.
    split; [reflexivity|]. destruct (OUTPUT_JSON cfg); reflexivity.
  - destruct f as [|f]; [lia|].
    destruct (Hfail O ltac:(lia)) as [e [Hq He]]. rewrite Nat.add_0_r in Hq.
    rewrite (fetch_loop_fail cfg q draw retries a f tw e (outcome_raise _ _ Hq) He). cbv zeta.
    assert (Ht1 : (fst (exponential_backoff cfg (draw a) a tw) < MAXQ)%Q)
      by exact (Htot O ltac:(lia)).
    set (tw' := fst (exponential_backoff cfg (draw a) a tw)) in *.
    destruct (Qle_bool MAXQ tw') eqn:Hle.
    { apply Qle_bool_iff in Hle. lra. }
    destruct (IH (S a) f tw') as [IH1 IH2].
    + lia.
    + intros i Hi. replace (S a + i)%nat with (a + S i)%nat by lia. apply Hfail; lia.
    + replace (S a + k)%nat with (a + S k)%nat by lia. exact Hok.
    + exact Hs.
    + intros i Hi. exact (Htot (S i) ltac:(lia)).
    + exact Ht1.
    + split; [exact IH1|].
      rewrite backoff_sleeps_once by (apply wait_time_pos; auto).
      unfold sleeps in *. simpl.
      destruct (handler_not_query_sleep e a retries) as [_ Hsl]. rewrite Hsl. simpl.
      rewrite IH2. reflexivity.
Qed.

(** An adapter that always fails: the loop returns [None], ends on the
    error line, and stops after [f] attempts or as soon as the budget is
    reached. *)
Lemma fetch_loop_exhaust :
  (forall i, exists e, q i = QRaise e /\ is_Exception e = true) ->
  forall f a tw,
  let evs := snd (loop a f tw) in
  fst (loop a f tw) = FReturn None /\
  last evs ConnectAttempt = Log ERROR (MsgFailed retries) /\
  (queries evs <= f)%nat /\
  (forall i, (1 <= i < queries evs)%nat -> total_after cfg draw a i tw < MAXQ)%Q /\
  (queries evs = f \/ MAXQ <= total_after cfg draw a (queries evs) tw)%Q.
Proof.
  intros Hfail. induction f as [|f IH]; intros a tw; cbv zeta.
  - cbn. split; [reflexivity|]. split; [reflexivity|]. split; [lia|].
    split; [intros; lia | left; reflexivity].
  - destruct (Hfail a) as [e [Hq He]].
    rewrite (fetch_loop_fail cfg q draw retries a f tw e (outcome_raise _ _ Hq) He). cbv zeta.
    destruct (handler_not_query_sleep e a retries) as [Hhq _].
    pose proof (backoff_no_query cfg (draw a) a tw) as [Hbq _].
    set (tw' := fst (exponential_backoff cfg (draw a) a tw)).
    set (h := if is_net_err e then Log WARNING (MsgNetwork a retries)
              else Log ERROR (MsgUnexpected a retries)) in *.
    destruct (Qle_bool MAXQ tw') eqn:Hle.
    + apply Qle_bool_iff in Hle.
      assert (Hn : queries (Query a :: h :: snd (exponential_backoff cfg (draw a) a tw)
                            ++ [Log ERROR (MsgFailed retries)]) = 1%nat).
      { unfold queries in *. cbn [filter is_query]. rewrite Hhq. cbn [List.length].
        rewrite filter_app_length, Hbq. reflexivity. }
      cbn [fst snd]. rewrite Hn.
      split; [reflexivity|]. split.
      { rewrite app_comm_cons, app_comm_cons. apply last_last. }
      split; [lia|]. split; [intros; lia|]. right. exact Hle.
    + assert (Hlt : (tw' < MAXQ)%Q).
      { apply Qnot_le_lt. intros H. apply Qle_bool_iff in H. congruence. }
      destruct (IH (S a) tw') as [IH1 [IH2 [IH3 [IH4 IH5]]]].
      set (rest := snd (loop (S a) f tw')) in *.
      assert (Hn : queries (Query a :: h :: snd (exponential_backoff cfg (draw a) a tw)
                            ++ rest) = S (queries rest)).
      { unfold queries in *. cbn [filter is_query]. rewrite Hhq. cbn [List.length].
        rewrite filter_app_length, Hbq. reflexivity. }
      cbn [fst snd]. rewrite Hn.
      split; [exact IH1|]. split.
      { destruct rest as [|x r]; [discriminate|].
        rewrite app_comm_cons, app_comm_cons, last_app_cons. exact IH2. }
      split; [lia|]. split.
      * intros [|[|i]] Hi; [lia| exact Hlt |]. apply (IH4 (S i)). lia.
      * destruct IH5 as [IH5|IH5]; [left; lia | right; exact IH5].
Qed.

End FetchRetry.

(** The two examples of the spec: 50 and 30 gwei give 20 gwei, an absent
    base fee gives no priority fee. *)
Lemma priority_fee_example_50_30 :
  make_sample (gwei 50) (mkBlock (Some (gwei 30)) None)
  = inr (mkSample (to_gwei (gwei 50)) (Some (to_gwei (gwei 30)))
                  (Some (to_gwei (gwei 20))) None).
Proof. vm_compute. reflexivity. Qed.

Lemma priority_fee_absent_base (g : Z) (num : option Z) (s : sample) :
  make_sample g (mkBlock None num) = inr s -> priority_fee_gwei s = None.
Proof.
  intros H. rewrite (make_sample_priority g (mkBlock None num) s H). reflexivity.
Qed.

(** ** Claims on [fetch_gas_prices] and [exponential_backoff] *)

(** C2 (code defect): with a non-zero base fee equal to the gas price
    (30 gwei each), the priority fee [gas - base = 0] is falsy and the
    sample carries no priority fee instead of [0.0]. *)
Theorem C2_priority_fee_equal_fees :
  fst (fetch_gas_prices default_config answer_equal_fees unit_draw 5)
  = FReturn (Some (mkSample (to_gwei (gwei 30)) (Some (to_gwei (gwei 30))) None (Some 1))).
Proof. vm_compute. reflexivity. Qed.

(** C3 (code defect): with [MAX_TOTAL_BACKOFF = 1] and an adapter that
    always times out, the budget is reached after one attempt; fetch
    returns [None] after 1 attempt but its final error line reports
    [RETRY_LIMIT = 5] attempts. *)
Theorem C3_failed_line_reports_limit :
  let r := fetch_gas_prices budget_one_config always_timeout unit_draw 5 in
  fst r = FReturn None /\
  queries (snd r) = 1%nat /\
  last (snd r) ConnectAttempt = Log ERROR (MsgFailed 5).
Proof. cbv zeta. split; [|split]; vm_compute; reflexivity. Qed.

(** C4 counterexample: two failures then a success, with
    [MAX_TOTAL_BACKOFF = 1]: the budget stops the loop after the first
    failure and the success at attempt 3 is never reached. *)
Theorem C4_budget_hides_success :
  fst (fetch_gas_prices budget_one_config fail_twice_then_ok unit_draw 5) = FReturn None /\
  sleeps (snd (fetch_gas_prices budget_one_config fail_twice_then_ok unit_draw 5)) = 1%nat.
Proof. split; vm_compute; reflexivity. Qed.

(** C4 (amended): an adapter that fails with [Exception]s on attempts
    [0..k-1] and answers on attempt [k < retries] with a gas price and a
    block the result dict can be built from ([from_wei] raises on none of
    its arguments) makes fetch return that sample with exactly [k] sleeps,
    provided the accumulated backoff stays below [MAX_TOTAL_BACKOFF] after
    each of the [k] failures (and the delays and the jitter draws are
    positive). *)
Theorem C4_first_success_within_budget (cfg : Config) (q : nat -> query) (draw : nat -> Q)
    (retries : Z) (k : nat) (g : Z) (blk : block) (s : sample) :
  0 < RETRY_BASE_DELAY cfg -> 0 < MAX_RETRY_DELAY cfg -> 0 < MAX_TOTAL_BACKOFF cfg ->
  (forall i, 0 < draw i)%Q ->
  (k < Z.to_nat retries)%nat ->
  (forall i, (i < k)%nat -> exists e, q i = QRaise e /\ is_Exception e = true) ->
  q k = QOk g blk -> make_sample g blk = inr s ->
  (forall i, (i < k)%nat ->
     total_after cfg draw 0 (S i) 0 < inject_Z (MAX_TOTAL_BACKOFF cfg))%Q ->
  fst (fetch_gas_prices cfg q draw retries) = FReturn (Some s) /\
  sleeps (snd (fetch_gas_prices cfg q draw retries)) = k.
Proof.
  intros Hb Hm Ht Hd Hk Hfail Hok Hs Htot. unfold fetch_gas_prices.
  apply (fetch_loop_first_success cfg q draw retries g blk s k);
    [exact Hb | exact Hm | exact Hd | exact Hk | exact Hfail | exact Hok | exact Hs
    | exact Htot | ].
  change (0 < inject_Z (MAX_TOTAL_BACKOFF cfg))%Q with (inject_Z 0 < inject_Z (MAX_TOTAL_BACKOFF cfg))%Q.
  rewrite <- Zlt_Qlt. exact Ht.
Qed.

Lemma C4_first_success_within_budget_witness :
  fst (fetch_gas_prices default_config fail_twice_then_ok unit_draw 5)
  = FReturn (Some (mkSample (to_gwei (gwei 50)) (Some (to_gwei (gwei 30)))
                            (Some (to_gwei (gwei 20))) (Some 1))) /\
  sleeps (snd (fetch_gas_prices default_config fail_twice_then_ok unit_draw 5)) = 2%nat.
Proof.
  apply (C4_first_success_within_budget default_config fail_twice_then_ok unit_draw 5 2
           (gwei 50) (mkBlock (Some (gwei 30)) (Some 1))).
  - reflexivity.
  - reflexivity.
  - reflexivity.
  - intros i. reflexivity.
  - vm_compute. lia.
  - intros i Hi. exists Timeout. destruct i as [|[|i]]; [split; reflexivity | split; reflexivity | lia].
  - reflexivity.
  - vm_compute. reflexivity.
  - intros i Hi. destruct i as [|[|i]]; [vm_compute; reflexivity | vm_compute; reflexivity | lia].
Defined.

(** C5: the wait is clamped so that [total_wait + wait_time] never
    exceeds [MAX_TOTAL_BACKOFF]; once [total_wait >= MAX_TOTAL_BACKOFF]
    nothing is slept. *)
Theorem C5_backoff_clamped (cfg : Config) (jitter : Q) (attempt : nat) (total_wait : Q) :
  (total_wait + wait_time cfg jitter attempt total_wait <= inject_Z (MAX_TOTAL_BACKOFF cfg))%Q /\
  (fst (exponential_backoff cfg jitter attempt total_wait) <= inject_Z (MAX_TOTAL_BACKOFF cfg))%Q /\
  ((inject_Z (MAX_TOTAL_BACKOFF cfg) <= total_wait)%Q ->
   snd (exponential_backoff cfg jitter attempt total_wait) = [] /\
   slept (snd (exponential_backoff cfg jitter attempt total_wait)) == 0%Q).
Proof.
  pose proof (Q.le_min_r (inject_Z (backoff_delay cfg attempt) * jitter)
                         (inject_Z (MAX_TOTAL_BACKOFF cfg) - total_wait)) as Hr.
  fold (wait_time cfg jitter attempt total_wait) in Hr.
  split; [lra|]. split; [simpl; lra|].
  intros Hge. unfold exponential_backoff; simpl.
  destruct (Qlt_le_dec 0 (wait_time cfg jitter attempt total_wait)); [lra|].
  split; reflexivity.
Qed.

Lemma C5_backoff_clamped_witness :
  (inject_Z 120 <= inject_Z 120)%Q /\
  snd (exponential_backoff default_config 1 0 (inject_Z 120)) = [].
Proof.
  split; [apply Qle_refl|].
  apply (proj2 (proj2 (C5_backoff_clamped default_config 1 0 (inject_Z 120)))).
  apply Qle_refl.
Defined.

(** C6 counterexample: with [RETRY_BASE_DELAY = 3] (and the default
    [MAX_RETRY_DELAY = 30]), attempt 3 is below the cap (24) and attempt 4
    reaches it (30); draws 1.2 and 0.8 give 28.8 then 24: the jittered
    delay drops when the cap is reached. *)
Theorem C6_jitter_drop_at_cap :
  backoff_delay base3_config 3 = 24 /\ backoff_delay base3_config 4 = 30 /\
  (wait_time base3_config (4 # 5) 4 0 < wait_time base3_config (6 # 5) 3 0)%Q.
Proof. split; [|split]; vm_compute; reflexivity. Qed.

(** C6 (amended): the capped delay [min(base * 2^a, max)] is
    non-decreasing in [a]; the jittered, budget-clamped wait is
    non-decreasing from [a] to [a+1] for any two draws in [0.8, 1.2] while
    [base * 2^(a+1) <= max]; and it never exceeds [max * 1.2]. *)
Theorem C6_backoff_monotone_bounded (cfg : Config) (a : nat) (tw j1 j2 : Q) :
  0 <= RETRY_BASE_DELAY cfg -> 0 <= MAX_RETRY_DELAY cfg ->
  (4 # 5 <= j1 <= 6 # 5)%Q -> (4 # 5 <= j2 <= 6 # 5)%Q ->
  backoff_delay cfg a <= backoff_delay cfg (S a) /\
  (RETRY_BASE_DELAY cfg * 2 ^ Z.of_nat (S a) <= MAX_RETRY_DELAY cfg ->
   (wait_time cfg j1 a tw <= wait_time cfg j2 (S a) tw)%Q) /\
  (wait_time cfg j1 a tw <= inject_Z (MAX_RETRY_DELAY cfg) * (6 # 5))%Q.
Proof.
  intros Hb Hm [Hj1 Hj1'] [Hj2 Hj2'].
  assert (Hpow : 2 ^ Z.of_nat (S a) = 2 * 2 ^ Z.of_nat a)
    by (rewrite Nat2Z.inj_succ, Z.pow_succ_r by lia; ring).
  assert (Hpos : 0 < 2 ^ Z.of_nat a) by (apply Z.pow_pos_nonneg; lia).
  split; [|split].
  - unfold backoff_delay. apply Z.min_le_compat_r. rewrite Hpow. nia.
  - intros Hcap. unfold wait_time. apply Q.min_le_compat_r.
    unfold backoff_delay. rewrite Hpow in *.
    rewrite (Z.min_l (RETRY_BASE_DELAY cfg * 2 ^ Z.of_nat a)) by nia.
    rewrite Z.min_l by exact Hcap.
    replace (RETRY_BASE_DELAY cfg * (2 * 2 ^ Z.of_nat a))
      with (2 * (RETRY_BASE_DELAY cfg * 2 ^ Z.of_nat a)) by ring.
    rewrite (inject_Z_mult 2 (RETRY_BASE_DELAY cfg * 2 ^ Z.of_nat a)).
    assert (HX : (0 <= inject_Z (RETRY_BASE_DELAY cfg * 2 ^ Z.of_nat a))%Q).
    { change 0%Q with (inject_Z 0). rewrite <- Zle_Qle. nia. }
    set (X := inject_Z (RETRY_BASE_DELAY cfg * 2 ^ Z.of_nat a)) in *.
    change (inject_Z 2) with (2 # 1).
    assert (0 <= X * (2 * j2 - j1))%Q by (apply Qmult_le_0_compat; lra).
    lra.
  - unfold wait_time.
    pose proof (Q.le_min_l (inject_Z (backoff_delay cfg a) * j1)
                           (inject_Z (MAX_TOTAL_BACKOFF cfg) - tw)) as Hl.
    assert (Hd : (inject_Z (backoff_delay cfg a) <= inject_Z (MAX_RETRY_DELAY cfg))%Q).
    { rewrite <- Zle_Qle. apply Z.le_min_r. }
    assert (HM : (0 <= inject_Z (MAX_RETRY_DELAY cfg))%Q).
    { change 0%Q with (inject_Z 0). rewrite <- Zle_Qle. exact Hm. }
    set (D := inject_Z (backoff_delay cfg a)) in *.
    set (M := inject_Z (MAX_RETRY_DELAY cfg)) in *.
    assert (0 <= (M - D) * j1)%Q by (apply Qmult_le_0_compat; lra).
    assert (0 <= M * ((6 # 5) - j1))%Q by (apply Qmult_le_0_compat; lra).
    lra.
Qed.

Lemma C6_backoff_monotone_bounded_witness :
  backoff_delay default_config 2 <= backoff_delay default_config 3 /\
  (wait_time default_config 1 2 0 <= wait_time default_config 1 3 0)%Q /\
  (wait_time default_config 1 2 0 <= inject_Z 30 * (6 # 5))%Q.
Proof.
  destruct (C6_backoff_monotone_bounded default_config 2 0 1 1) as [H1 [H2 H3]].
  - vm_compute; discriminate.
  - vm_compute; discriminate.
  - split; vm_compute; discriminate.
  - split; vm_compute; discriminate.
  - split; [exact H1|]. split; [apply H2; vm_compute; discriminate | exact H3].
Defined.

(** C9 counterexample: a [KeyboardInterrupt] (a [BaseException], not an
    [Exception]) raised by the adapter is caught by neither handler and
    leaves [fetch_gas_prices]. *)
Theorem C9_interrupt_escapes :
  fetch_gas_prices default_config always_interrupt unit_draw 5
  = (FRaise KeyboardInterrupt, [Query 0]).
Proof. reflexivity. Qed.

(** C9 (amended): when every exception the adapter raises derives from
    [Exception], fetch returns a sample or [None]; an exception that
    leaves fetch is always a non-[Exception] the adapter raised. *)
Theorem C9_exceptions_absorbed (cfg : Config) (q : nat -> query) (draw : nat -> Q) (retries : Z) :
  (forall a e, q a = QRaise e -> is_Exception e = true) ->
  exists r, fst (fetch_gas_prices cfg q draw retries) = FReturn r.
Proof.
  intros Hq. unfold fetch_gas_prices.
  pose proof (fetch_loop_raise cfg q draw retries 0 (Z.to_nat retries) 0) as H.
  destruct (fst (fetch_loop cfg q draw retries 0 (Z.to_nat retries) 0)) as [r|e].
  - exists r; reflexivity.
  - destruct H as [He [a Ha]]. rewrite (Hq a e Ha) in He. discriminate.
Qed.

Lemma C9_exceptions_absorbed_witness :
  exists r, fst (fetch_gas_prices default_config always_timeout unit_draw 5) = FReturn r.
Proof.
  apply C9_exceptions_absorbed. intros a e H. injection H as <-. reflexivity.
Defined.

(** C10: when every successful answer has a non-zero base fee equal to
    the gas price, any sample fetch returns has no priority fee. *)
Theorem C10_equal_fees_no_priority (cfg : Config) (q : nat -> query) (draw : nat -> Q)
    (retries : Z) (s : sample) :
  (forall a g blk, q a = QOk g blk -> baseFeePerGas blk = Some g /\ g <> 0) ->
  fst (fetch_gas_prices cfg q draw retries) = FReturn (Some s) ->
  priority_fee_gwei s = None.
Proof.
  intros Hq Hs. unfold fetch_gas_prices in Hs.
  destruct (fetch_loop_sample cfg q draw retries _ _ _ s Hs) as [a [g [blk [Ha Hm]]]].
  destruct (Hq a g blk Ha) as [Hb Hg].
  rewrite (make_sample_priority g blk s Hm). unfold base_fee_of. rewrite Hb.
  unfold truthy. rewrite Z.sub_diag. simpl. rewrite andb_false_r. reflexivity.
Qed.

Lemma C10_equal_fees_no_priority_witness :
  priority_fee_gwei (mkSample (to_gwei (gwei 30)) (Some (to_gwei (gwei 30))) None (Some 1))
  = None.
Proof.
  apply (C10_equal_fees_no_priority default_config answer_equal_fees unit_draw 5).
  - intros a g blk H. injection H as <- <-. split; [reflexivity | discriminate].
  - vm_compute. reflexivity.
Defined.

(** ** Lemmas on the monitor loop *)

Section MonitorFacts.
Variables (cfg : Config) (interval : Z).

Lemma run_cons (s : mstate) (i : input) (l : list input) :
  run cfg interval s (i :: l) = run cfg interval (exec cfg interval s i) l.
Proof. reflexivity. Qed.

Lemma run_app (s : mstate) (l1 l2 : list input) :
  run cfg interval s (l1 ++ l2) = run cfg interval (run cfg interval s l1) l2.
Proof. unfold run. apply fold_left_app. Qed.

(** A raise out of [fetch_gas_prices] is never an [Exception]. *)
Lemma fetch_raise_not_Exception (q : nat -> query) (draw : nat -> Q) (e : exn) evs :
  fetch_gas_prices cfg q draw (RETRY_LIMIT cfg) = (FRaise e, evs) ->
  is_Exception e = false /\ exists a, q a = QRaise e.
Proof.
  intros H. unfold fetch_gas_prices in H.
  pose proof (fetch_loop_raise cfg q draw (RETRY_LIMIT cfg) 0 (Z.to_nat (RETRY_LIMIT cfg)) 0) as R.
  rewrite H in R. exact R.
Qed.

Lemma step_keeps_web3 (w : world) (s : mstate) (c : conn) :
  m_web3 s = Some c -> m_web3 (step cfg interval w s) = Some c.
Proof.
  intros H. unfold step.
  destruct (m_pc s) as [| | |[|k]| |e]; try exact H.
  - destruct (kill_now s); exact H.
  - rewrite H. exact H.
  - destruct (fetch_gas_prices cfg (w_query w) (w_draw w) (RETRY_LIMIT cfg))
      as [[[r|]|e] evs] eqn:E; try exact H.
    destruct (fetch_raise_not_Exception _ _ e evs E) as [He _].
    rewrite He. exact H.
  - destruct (kill_now s); exact H.
Qed.

Lemma run_keeps_web3 (l : list input) : forall (s : mstate) (c : conn),
  m_web3 s = Some c -> m_web3 (run cfg interval s l) = Some c.
Proof.
  induction l as [|i l IH]; intros s c H; [exact H|].
  rewrite run_cons. apply IH. destruct i as [w|n]; [apply step_keeps_web3; exact H | exact H].
Qed.

(** The interval loop without a stop request: [k] one-second sleeps. *)
Lemma sleep_loop_run (w : world) (k : nat) : forall w3 lg,
  run cfg interval (mkState (PSleep k) w3 false lg) (repeat (IStep w) k)
  = mkState (PSleep 0) w3 false (lg ++ repeat (Sleep 1) k).
Proof.
  induction k as [|k IH]; intros w3 lg; cbn [repeat].
  - rewrite app_nil_r. reflexivity.
  - rewrite run_cons. cbn [exec step m_pc kill_now]. unfold set_pc.
    cbn [m_pc m_web3 kill_now m_log]. rewrite IH.
    rewrite <- app_assoc. reflexivity.
Qed.

(** One cycle whose [get_web3] fails. *)
Lemma failed_cycle_run (w : world) (lg : list event) :
  w_connect w = None ->
  run cfg interval (mkState PWhile None false lg) (cycle_inputs interval w)
  = mkState PWhile None false (lg ++ failed_cycle_log cfg interval).
Proof.
  intros Hw. unfold cycle_inputs.
  rewrite run_cons, run_cons. simpl exec. unfold step at 2; simpl.
  unfold step; simpl. rewrite Hw.
  destruct (get_web3 (PROVIDER_URL cfg) None) as [r evs] eqn:G.
  assert (Hr : r = inl ConnectionError).
  { unfold get_web3 in G. injection G as <- _. reflexivity. }
  subst r. unfold set_web3, set_pc, sleep_loop; simpl.
  rewrite run_app, (sleep_loop_run w (Z.to_nat interval)). simpl.
  unfold failed_cycle_log. rewrite G. cbn [snd].
  cbn [exec step m_pc]. unfold set_pc. cbn [m_pc m_web3 kill_now m_log].
  rewrite !app_nil_r, <- !app_assoc. reflexivity.
Qed.

Lemma count_stopped_app (l1 l2 : list event) :
  count_stopped (l1 ++ l2) = (count_stopped l1 + count_stopped l2)%nat.
Proof. apply filter_app_length. Qed.

Lemma get_web3_no_stopped (url : string) (c : option conn) :
  count_stopped (snd (get_web3 url c)) = O.
Proof. unfold get_web3. destruct (url_placeholder url), c; reflexivity. Qed.

Lemma step_inv (w : world) (s : mstate) :
  wb_input (IStep w) -> inv s -> inv (step cfg interval w s).
Proof.
  intros Hwb [Hna Hc]. unfold step.
  destruct (m_pc s) as [| | |[|k]| |e] eqn:Hp; simpl in Hc.
  - destruct (kill_now s); unfold inv, set_pc; simpl;
      (split; [discriminate|]); rewrite count_stopped_app, Hc; reflexivity.
  - destruct (m_web3 s).
    + unfold inv, set_pc; simpl. split; [discriminate|].
      rewrite count_stopped_app, Hc; reflexivity.
    + destruct (get_web3 (PROVIDER_URL cfg) (w_connect w)) as [[e|c] evs] eqn:G;
        pose proof (get_web3_no_stopped (PROVIDER_URL cfg) (w_connect w)) as Hg;
        rewrite G in Hg; simpl in Hg;
        unfold inv, set_web3; simpl; (split; [discriminate|]);
        rewrite !count_stopped_app, Hc, Hg; reflexivity.
  - destruct (fetch_gas_prices cfg (w_query w) (w_draw w) (RETRY_LIMIT cfg))
      as [[[r|]|e] evs] eqn:E;
    pose proof (fetch_loop_no_stopped cfg (w_query w) (w_draw w) (RETRY_LIMIT cfg)
                  0 (Z.to_nat (RETRY_LIMIT cfg)) 0) as Hf;
    unfold fetch_gas_prices in E; rewrite E in Hf; simpl in Hf.
    + unfold inv, set_pc; simpl. split; [discriminate|].
      rewrite !count_stopped_app, Hc, Hf; reflexivity.
    + unfold inv, set_pc; simpl. split; [discriminate|].
      rewrite !count_stopped_app, Hc, Hf; reflexivity.
    + fold (fetch_gas_prices cfg (w_query w) (w_draw w) (RETRY_LIMIT cfg)) in E.
      destruct (fetch_raise_not_Exception _ _ e evs E) as [He [a Ha]].
      rewrite (Hwb a e Ha) in He. discriminate.
  - unfold inv, set_pc; simpl. split; [discriminate|].
    rewrite count_stopped_app, Hc; reflexivity.
  - destruct (kill_now s); unfold inv, set_pc; simpl; (split; [discriminate|]);
      rewrite count_stopped_app, Hc; reflexivity.
  - unfold inv. rewrite Hp. split; [discriminate | exact Hc].
  - exfalso. exact (Hna e eq_refl).
Qed.

Lemma handler_inv (n : Z) (s : mstate) : inv s -> inv (handler n s).
Proof.
  intros [Hna Hc]. unfold inv, handler; simpl. split; [exact Hna|].
  rewrite count_stopped_app, Hc. rewrite Nat.add_0_r. reflexivity.
Qed.

Lemma run_inv (l : list input) : forall s,
  Forall wb_input l -> inv s -> inv (run cfg interval s l).
Proof.
  induction l as [|i l IH]; intros s Hl Hs; [exact Hs|].
  inversion Hl as [|? ? Hi Hl']; subst.
  rewrite run_cons. apply IH; [exact Hl'|].
  destruct i as [w|n]; [apply step_inv; assumption | apply handler_inv; exact Hs].
Qed.

Lemma step_kill (w : world) (s : mstate) :
  kill_now (step cfg interval w s) = kill_now s.
Proof.
  unfold step, set_pc, set_web3.
  destruct (m_pc s) as [| | |[|k]| |e]; try reflexivity.
  - destruct (kill_now s); reflexivity.
  - destruct (m_web3 s); [reflexivity|].
    destruct (get_web3 (PROVIDER_URL cfg) (w_connect w)) as [[e|c] evs]; reflexivity.
  - destruct (fetch_gas_prices cfg (w_query w) (w_draw w) (RETRY_LIMIT cfg))
      as [[[r|]|e] evs]; try reflexivity.
    destruct (is_Exception e); reflexivity.
  - destruct (kill_now s); reflexivity.
Qed.

(** Once the stop flag is set, every step moves closer to [PExited]. *)
Lemma step_dist (w : world) (s : mstate) :
  kill_now s = true -> (dist (m_pc (step cfg interval w s)) <= pred (dist (m_pc s)))%nat.
Proof.
  intros Hk. unfold step.
  destruct (m_pc s) as [| | |[|k]| |e] eqn:Hp; simpl; try rewrite Hk; simpl;
    try rewrite Hp; simpl; try lia.
  - destruct (m_web3 s); simpl; [lia|].
    destruct (get_web3 (PROVIDER_URL cfg) (w_connect w)) as [[e|c] evs]; simpl; lia.
  - destruct (fetch_gas_prices cfg (w_query w) (w_draw w) (RETRY_LIMIT cfg))
      as [[[r|]|e] evs]; simpl; try lia.
    destruct (is_Exception e); simpl; lia.
Qed.

Lemma run_dist (l : list input) : forall s,
  kill_now s = true ->
  kill_now (run cfg interval s l) = true /\
  (dist (m_pc (run cfg interval s l)) <= dist (m_pc s) - steps_in l)%nat.
Proof.
  induction l as [|i l IH]; intros s Hk.
  - split; [exact Hk|]. change (run cfg interval s []) with s.
    unfold steps_in; cbn [filter List.length]. lia.
  - rewrite run_cons. destruct i as [w|n]; cbn [exec].
    + pose proof (step_dist w s Hk) as Hd.
      destruct (IH (step cfg interval w s)) as [IH1 IH2]; [rewrite step_kill; exact Hk|].
      split; [exact IH1|]. unfold steps_in in *. cbn [filter is_step List.length]. lia.
    + destruct (IH (handler n s)) as [IH1 IH2]; [reflexivity|].
      split; [exact IH1|]. unfold steps_in in *. cbn [filter is_step] in *. exact IH2.
Qed.

End MonitorFacts.

(** ** Claims on the monitor loop *)

(** C1 counterexample: default configuration, interval 1, a provider
    that connects but times out on every call.  The first cycle connects,
    fetch fails five times with network warnings and returns [None]; at
    the end of the cycle the connection is still held, and the next cycle
    goes straight to the fetch without calling [get_web3] (even though the
    provider would now refuse a connection). *)
Theorem C1_transport_failure_keeps_connection :
  let s := run default_config 1 init (repeat (IStep flaky_world) 5) in
  m_pc s = PWhile /\ m_web3 s = Some 7%nat /\
  existsb is_net_warning (m_log s) = true /\
  m_pc (run default_config 1 s [IStep down_world; IStep down_world]) = PFetch.
Proof. cbv zeta. split; [|split; [|split]]; vm_compute; reflexivity. Qed.

(** C1 (amended): fetch failures never invalidate the connection: once
    [web3] holds a connection, every later step keeps that same one. *)
Theorem C1_connection_kept (cfg : Config) (interval : Z) (s : mstate)
    (sched : list input) (c : conn) :
  m_web3 s = Some c -> m_web3 (run cfg interval s sched) = Some c.
Proof. apply run_keeps_web3. Qed.

Lemma C1_connection_kept_witness :
  m_web3 (run default_config 1 (run default_config 1 init [IStep flaky_world; IStep flaky_world])
            (repeat (IStep flaky_world) 5)) = Some 7%nat.
Proof. apply C1_connection_kept. vm_compute. reflexivity. Defined.

(** C7 counterexample: with the provider down, a cycle logs the failure
    of [get_web3] at ERROR level ([logger.exception]); no CRITICAL line is
    ever written. *)
Theorem C7_connect_failure_not_critical :
  let s := run default_config 10 init (cycle_inputs 10 down_world) in
  m_log s = [Log INFO MsgStarted] ++ failed_cycle_log default_config 10 /\
  In (Log ERROR (MsgCycleError ConnectionError)) (m_log s) /\
  existsb is_critical (m_log s) = false.
Proof.
  cbv zeta.
  assert (Hlog : m_log (run default_config 10 init (cycle_inputs 10 down_world))
                 = [Log INFO MsgStarted] ++ failed_cycle_log default_config 10)
    by (vm_compute; reflexivity).
  split; [exact Hlog|]. rewrite Hlog. split.
  - apply in_or_app. right. unfold failed_cycle_log. apply in_or_app. right. left. reflexivity.
  - vm_compute. reflexivity.
Qed.

(** C7 (amended): each cycle whose [get_web3] fails logs the error at
    ERROR level (never CRITICAL), keeps [web3 = None], sleeps [interval]
    one-second steps, and returns to the loop head; this repeats for any
    number of cycles. *)
Theorem C7_connect_failures_retried (cfg : Config) (interval : Z) (ws : list world)
    (s : mstate) :
  Forall (fun w => w_connect w = None) ws ->
  m_pc s = PWhile -> m_web3 s = None -> kill_now s = false ->
  run cfg interval s (flat_map (cycle_inputs interval) ws)
  = mkState PWhile None false
      (m_log s ++ List.concat (repeat (failed_cycle_log cfg interval) (List.length ws))) /\
  existsb is_critical (failed_cycle_log cfg interval) = false.
Proof.
  intros Hws Hp Hw Hk. split.
  - destruct s as [p w3 k lg]; cbn in Hp, Hw, Hk; subst p w3 k; cbn [m_log].
    revert lg. induction Hws as [|w ws Hw ws' IH]; intros lg.
    + cbn. rewrite app_nil_r. reflexivity.
    + cbn [flat_map]. rewrite run_app, failed_cycle_run by exact Hw.
      rewrite IH. cbn [List.length repeat List.concat]. rewrite <- app_assoc. reflexivity.
  - unfold failed_cycle_log, get_web3.
    destruct (url_placeholder (PROVIDER_URL cfg)); cbn;
      induction (Z.to_nat interval); cbn; auto.
Qed.

Lemma C7_connect_failures_retried_witness :
  run default_config 10 init (flat_map (cycle_inputs 10) [down_world; down_world])
  = mkState PWhile None false
      ([Log INFO MsgStarted] ++ List.concat (repeat (failed_cycle_log default_config 10) 2)).
Proof.
  apply (C7_connect_failures_retried default_config 10 [down_world; down_world] init).
  - repeat constructor.
  - reflexivity.
  - reflexivity.
  - reflexivity.
Defined.

(** C8: whatever ran before, two termination signals in succession set
    the stop flag; at most four further loop steps later the loop has
    exited, and exactly one "Gas price monitoring stopped." line is in the
    log, however many further steps or signals follow. *)
Theorem C8_two_signals_one_exit (cfg : Config) (interval : Z) (pre post : list input)
    (sig1 sig2 : Z) :
  Forall wb_input pre -> Forall wb_input post -> (4 <= steps_in post)%nat ->
  let s := run cfg interval init (pre ++ [ISignal sig1; ISignal sig2] ++ post) in
  m_pc s = PExited /\ kill_now s = true /\ count_stopped (m_log s) = 1%nat.
Proof.
  intros Hpre Hpost Hn. cbv zeta.
  rewrite run_app, run_app.
  set (s0 := run cfg interval init pre).
  assert (I0 : inv s0).
  { apply run_inv; [exact Hpre|]. split; [discriminate | reflexivity]. }
  set (s1 := run cfg interval s0 [ISignal sig1; ISignal sig2]).
  assert (I1 : inv s1) by (apply handler_inv, handler_inv, I0).
  assert (K1 : kill_now s1 = true) by reflexivity.
  assert (Hd1 : (dist (m_pc s1) <= 4)%nat) by (destruct (m_pc s1); simpl; lia).
  assert (Hd0 : (dist (m_pc s0) <= 4)%nat) by (destruct (m_pc s0); simpl; lia).
  destruct (run_dist cfg interval post s1 K1) as [K2 D2].
  assert (I2 : inv (run cfg interval s1 post)) by (apply run_inv; assumption).
  destruct I2 as [Hna Hc].
  assert (Hex : m_pc (run cfg interval s1 post) = PExited).
  { destruct (m_pc (run cfg interval s1 post)) eqn:E; simpl in D2; try lia.
    - reflexivity.
    - exfalso. exact (Hna e eq_refl). }
  split; [exact Hex|]. split; [exact K2|]. rewrite Hc, Hex. reflexivity.
Qed.

Lemma C8_two_signals_one_exit_witness :
  let s := run default_config 10 init
             ([IStep flaky_world; IStep flaky_world] ++ [ISignal 15; ISignal 15]
              ++ repeat (IStep flaky_world) 4) in
  m_pc s = PExited /\ kill_now s = true /\ count_stopped (m_log s) = 1%nat.
Proof.
  apply C8_two_signals_one_exit.
  - repeat constructor; intros a e H; injection H as <-; reflexivity.
  - repeat constructor; intros a e H; injection H as <-; reflexivity.
  - vm_compute. lia.
Defined.

(** ** Further properties of [fetch_gas_prices] *)

Lemma net_err_Exception (e : exn) : is_net_err e = true -> is_Exception e = true.
Proof. destruct e; simpl; congruence. Qed.

Lemma fetch_loop_other (cfg : Config) (q : nat -> query) (draw : nat -> Q) (retries : Z)
    (a f : nat) (tw : Q) (e : exn) :
  attempt_outcome (q a) = inl e -> is_Exception e = false ->
  fetch_loop cfg q draw retries a (S f) tw = (FRaise e, [Query a]).
Proof.
  intros Hq He. cbn [fetch_loop]. rewrite Hq.
  destruct (is_net_err e) eqn:Hn; [rewrite (net_err_Exception e Hn) in He; discriminate|].
  rewrite He. reflexivity.
Qed.

Lemma count_ev_app (f : event -> bool) (l1 l2 : list event) :
  count_ev f (l1 ++ l2) = (count_ev f l1 + count_ev f l2)%nat.
Proof. apply filter_app_length. Qed.

Lemma count_ev_zero (f : event -> bool) (evs : list event) :
  (forall ev, is_fetch_event ev = true -> f ev = false) ->
  forallb is_fetch_event evs = true -> count_ev f evs = O.
Proof.
  intros Hf. induction evs as [|ev evs IH]; [reflexivity|].
  simpl. intros H. apply andb_true_iff in H as [H1 H2].
  unfold count_ev in *. simpl. rewrite (Hf ev H1). exact (IH H2).
Qed.

Lemma slept_app (l1 l2 : list event) : slept (l1 ++ l2) == (slept l1 + slept l2)%Q.
Proof.
  induction l1 as [|ev l1 IH]; simpl; [lra|].
  destruct ev; rewrite ?IH; lra.
Qed.

Section FetchMore.
Variables (cfg : Config) (q : nat -> query) (draw : nat -> Q) (retries : Z).

Abbreviation loop := (fetch_loop cfg q draw retries).
Abbreviation MAXQ := (inject_Z (MAX_TOTAL_BACKOFF cfg)).

Lemma fetch_loop_events (f : nat) : forall a tw,
  forallb is_fetch_event (snd (loop a f tw)) = true.
Proof.
  induction f as [|f IH]; intros a tw; [reflexivity|].
  destruct (attempt_outcome (q a)) as [e|r] eqn:Hq; revgoals.
  - cbn [fetch_loop]. rewrite Hq. unfold emit. destruct (OUTPUT_JSON cfg); reflexivity.
  - destruct (is_Exception e) eqn:He; [|rewrite (fetch_loop_other cfg q draw retries a f tw e Hq He); reflexivity].
    rewrite (fetch_loop_fail cfg q draw retries a f tw e Hq He). cbv zeta.
    assert (Hh : is_fetch_event (if is_net_err e then Log WARNING (MsgNetwork a retries)
                                 else Log ERROR (MsgUnexpected a retries)) = true)
      by (destruct (is_net_err e); reflexivity).
    assert (Hb : forallb is_fetch_event (snd (exponential_backoff cfg (draw a) a tw)) = true)
      by (destruct (backoff_events cfg (draw a) a tw) as [-> | ->]; reflexivity).
    destruct (Qle_bool MAXQ (fst (exponential_backoff cfg (draw a) a tw))); cbn [snd forallb];
      rewrite Hh, forallb_app, Hb; [reflexivity|]. rewrite IH. reflexivity.
Qed.

Lemma fetch_loop_queries_le (f : nat) : forall a tw, (queries (snd (loop a f tw)) <= f)%nat.
Proof.
  induction f as [|f IH]; intros a tw; [cbn; lia|].
  destruct (attempt_outcome (q a)) as [e|r] eqn:Hq; revgoals.
  - cbn [fetch_loop]. rewrite Hq. unfold emit, queries.
    destruct (OUTPUT_JSON cfg); cbn; lia.
  - destruct (is_Exception e) eqn:He; [|rewrite (fetch_loop_other cfg q draw retries a f tw e Hq He); cbn; lia].
    rewrite (fetch_loop_fail cfg q draw retries a f tw e Hq He). cbv zeta.
    destruct (handler_not_query_sleep e a retries) as [Hhq _].
    pose proof (backoff_no_query cfg (draw a) a tw) as [Hbq _].
    set (tw' := fst (exponential_backoff cfg (draw a) a tw)).
    set (h := if is_net_err e then Log WARNING (MsgNetwork a retries)
              else Log ERROR (MsgUnexpected a retries)) in *.
    specialize (IH (S a) tw').
    destruct (Qle_bool MAXQ tw'); cbn [snd]; unfold queries in *;
      cbn [filter is_query]; rewrite Hhq; cbn [List.length];
      rewrite filter_app_length, Hbq; cbn [filter is_query List.length Nat.add]; lia.
Qed.

(** One output record exactly when a sample is returned, one "Failed"
    line exactly when [None] is returned. *)
Lemma fetch_loop_outcome_lines (f : nat) : forall a tw,
  let evs := snd (loop a f tw) in
  match fst (loop a f tw) with
  | FReturn (Some _) => count_ev is_output evs = 1%nat /\ count_ev is_failed_line evs = 0%nat
  | FReturn None => count_ev is_output evs = 0%nat /\ count_ev is_failed_line evs = 1%nat
  | FRaise _ => count_ev is_output evs = 0%nat /\ count_ev is_failed_line evs = 0%nat
  end.
Proof.
  induction f as [|f IH]; intros a tw; cbv zeta; [split; reflexivity|].
  destruct (attempt_outcome (q a)) as [e|r] eqn:Hq; revgoals.
  - cbn [fetch_loop]. rewrite Hq. unfold emit. cbn [fst snd].
    destruct (OUTPUT_JSON cfg); split; reflexivity.
  - destruct (is_Exception e) eqn:He; [|rewrite (fetch_loop_other cfg q draw retries a f tw e Hq He); split; reflexivity].
    rewrite (fetch_loop_fail cfg q draw retries a f tw e Hq He). cbv zeta.
    set (h := if is_net_err e then Log WARNING (MsgNetwork a retries)
              else Log ERROR (MsgUnexpected a retries)).
    assert (Hh : is_output h = false /\ is_failed_line h = false)
      by (unfold h; destruct (is_net_err e); split; reflexivity).
    assert (Hb : count_ev is_output (snd (exponential_backoff cfg (draw a) a tw)) = O /\
                 count_ev is_failed_line (snd (exponential_backoff cfg (draw a) a tw)) = O)
      by (destruct (backoff_events cfg (draw a) a tw) as [-> | ->]; split; reflexivity).
    destruct Hh as [Hh1 Hh2]. destruct Hb as [Hb1 Hb2].
    set (tw' := fst (exponential_backoff cfg (draw a) a tw)).
    specialize (IH (S a) tw'). cbv zeta in IH.
    destruct (Qle_bool MAXQ tw'); cbn [fst snd].
    + unfold count_ev in *. cbn [filter is_output is_failed_line]. rewrite Hh1, Hh2.
      rewrite !filter_app_length, Hb1, Hb2. split; reflexivity.
    + unfold count_ev in *. cbn [filter is_output is_failed_line]. rewrite Hh1, Hh2.
      rewrite !filter_app_length, Hb1, Hb2. cbn [Nat.add].
      destruct (fst (loop (S a) f tw')) as [[s|]|e']; exact IH.
Qed.

(** The time slept by one fetch stays within the budget left. *)
Lemma fetch_loop_slept_le :
  0 <= RETRY_BASE_DELAY cfg -> 0 <= MAX_RETRY_DELAY cfg -> (forall i, 0 <= draw i)%Q ->
  forall f a tw, (0 <= tw <= MAXQ)%Q -> (slept (snd (loop a f tw)) <= MAXQ - tw)%Q.
Proof.
  intros Hb Hm Hd. induction f as [|f IH]; intros a tw Htw; [cbn; lra|].
  destruct (attempt_outcome (q a)) as [e|r] eqn:Hq; revgoals.
  - cbn [fetch_loop]. rewrite Hq. unfold emit. destruct (OUTPUT_JSON cfg); cbn; lra.
  - destruct (is_Exception e) eqn:He; [|rewrite (fetch_loop_other cfg q draw retries a f tw e Hq He); cbn; lra].
    rewrite (fetch_loop_fail cfg q draw retries a f tw e Hq He). cbv zeta.
    set (w := wait_time cfg (draw a) a tw).
    assert (Hw0 : (0 <= w)%Q).
    { unfold w, wait_time. apply Q.min_glb; [|lra].
      apply Qmult_le_0_compat; [|apply Hd].
      change 0%Q with (inject_Z 0). rewrite <- Zle_Qle.
      unfold backoff_delay. apply Z.min_glb; [|exact Hm].
      apply Z.mul_nonneg_nonneg; [exact Hb|]. apply Z.pow_nonneg. lia. }
    assert (Hw1 : (w <= MAXQ - tw)%Q) by apply Q.le_min_r.
    assert (Hs : (slept (snd (exponential_backoff cfg (draw a) a tw)) <= w)%Q).
    { destruct (backoff_events cfg (draw a) a tw) as [-> | ->]; cbn; fold w; lra. }
    assert (Hf : fst (exponential_backoff cfg (draw a) a tw) = (tw + w)%Q) by reflexivity.
    assert (Hh : forall r, slept ((if is_net_err e then Log WARNING (MsgNetwork a retries)
                                  else Log ERROR (MsgUnexpected a retries)) :: r) = slept r)
      by (intros r; destruct (is_net_err e); reflexivity).
    rewrite Hf.
    destruct (Qle_bool MAXQ (tw + w)); cbn [snd];
      change (slept (Query a :: ?r)) with (slept r); rewrite Hh, slept_app.
    + change (slept [Log ERROR (MsgFailed retries)]) with 0%Q. lra.
    + specialize (IH (S a) (tw + w)%Q ltac:(lra)). lra.
Qed.

(** An adapter failing on every attempt, with the budget never reached:
    one sleep per attempt, including one after the last attempt. *)
Lemma fetch_loop_all_fail_sleeps :
  0 < RETRY_BASE_DELAY cfg -> 0 < MAX_RETRY_DELAY cfg -> (forall i, 0 < draw i)%Q ->
  (forall i, exists e, q i = QRaise e /\ is_Exception e = true) ->
  forall f a tw, (tw < MAXQ)%Q ->
  (forall i, (1 <= i <= f)%nat -> total_after cfg draw a i tw < MAXQ)%Q ->
  sleeps (snd (loop a f tw)) = f /\ queries (snd (loop a f tw)) = f.
Proof.
  intros Hb Hm Hd Hfail. induction f as [|f IH]; intros a tw Htw Htot; [split; reflexivity|].
  destruct (Hfail a) as [e [Hq He]].
  rewrite (fetch_loop_fail cfg q draw retries a f tw e (outcome_raise _ _ Hq) He). cbv zeta.
  assert (Ht1 : (fst (exponential_backoff cfg (draw a) a tw) < MAXQ)%Q)
    by exact (Htot 1%nat ltac:(lia)).
  rewrite (backoff_sleeps_once cfg (draw a) a tw) by (apply wait_time_pos; auto).
  set (tw' := fst (exponential_backoff cfg (draw a) a tw)) in *.
  destruct (Qle_bool MAXQ tw') eqn:Hle.
  { apply Qle_bool_iff in Hle. lra. }
  destruct (IH (S a) tw' Ht1) as [IH1 IH2].
  { intros i Hi. exact (Htot (S i) ltac:(lia)). }
  destruct (handler_not_query_sleep e a retries) as [Hhq Hhs].
  cbn [snd]. unfold sleeps, queries in *. split.
  - cbn [filter is_sleep]. rewrite Hhs. cbn [filter is_sleep app List.length].
    rewrite IH1. reflexivity.
  - cbn [filter is_query]. rewrite Hhq. cbn [filter is_query app List.length].
    rewrite IH2. reflexivity.
Qed.

(** Attempts that all fail with an [Exception] outside the network
    group: [None], each attempt logged as an unexpected error. *)
Lemma fetch_loop_all_unexpected :
  (forall i, exists e, attempt_outcome (q i) = inl e /\ is_Exception e = true /\
                       is_net_err e = false) ->
  forall f a tw,
  fst (loop a f tw) = FReturn None /\
  count_ev is_unexpected_line (snd (loop a f tw)) = queries (snd (loop a f tw)).
Proof.
  intros Hfail. induction f as [|f IH]; intros a tw; [split; reflexivity|].
  destruct (Hfail a) as [e [Hq [He Hn]]].
  rewrite (fetch_loop_fail cfg q draw retries a f tw e Hq He). cbv zeta. rewrite Hn.
  assert (Hb : count_ev is_unexpected_line (snd (exponential_backoff cfg (draw a) a tw)) = O /\
               queries (snd (exponential_backoff cfg (draw a) a tw)) = O)
    by (destruct (backoff_events cfg (draw a) a tw) as [-> | ->]; split; reflexivity).
  destruct Hb as [Hb1 Hb2].
  set (tw' := fst (exponential_backoff cfg (draw a) a tw)).
  destruct (IH (S a) tw') as [IH1 IH2].
  destruct (Qle_bool MAXQ tw'); cbn [fst snd]; (split; [try exact IH1; reflexivity|]);
    unfold count_ev, queries in *; cbn [filter is_unexpected_line is_query List.length];
    rewrite !filter_app_length, Hb1, Hb2; cbn [filter is_unexpected_line is_query List.length Nat.add].
  - reflexivity.
  - rewrite IH2. reflexivity.
Qed.

End FetchMore.

Lemma make_sample_ok (g : Z) (blk : block) :
  match make_sample g blk with
  | inl _ => ~ wei_ok g (base_fee_of blk)
  | inr _ => wei_ok g (base_fee_of blk)
  end.
Proof.
  unfold make_sample, from_wei_if, from_wei, truthy, wei_ok. cbv zeta.
  set (b := base_fee_of blk). clearbody b.
  sample_cases.
Qed.

(** ** Further properties of the monitor loop *)

Lemma fetch_event_not_signal (ev : event) : is_fetch_event ev = true -> is_signal_line ev = false.
Proof. destruct ev as [l m| | | |]; try reflexivity. destruct m; simpl; congruence. Qed.

Lemma get_web3_no_signal (url : string) (c : option conn) :
  count_ev is_signal_line (snd (get_web3 url c)) = O.
Proof. unfold get_web3. destruct (url_placeholder url), c; reflexivity. Qed.

Section MonitorMore.
Variables (cfg : Config) (interval : Z).

Lemma fetch_no_signal (q : nat -> query) (draw : nat -> Q) (retries : Z) :
  count_ev is_signal_line (snd (fetch_gas_prices cfg q draw retries)) = O.
Proof.
  apply count_ev_zero; [exact fetch_event_not_signal|]. apply fetch_loop_events.
Qed.

(** A step only appends to the log: never a signal line, and no stop line
    while the stop flag is clear. *)
Lemma step_log (w : world) (s : mstate) :
  exists extra, m_log (step cfg interval w s) = m_log s ++ extra /\
  count_ev is_signal_line extra = O /\
  (kill_now s = false -> count_stopped extra = O).
Proof.
  unfold step.
  destruct (m_pc s) as [| | |[|k]| |e].
  - destruct (kill_now s); eexists; (split; [reflexivity|]); split; try reflexivity.
    discriminate.
  - destruct (m_web3 s).
    + eexists; (split; [reflexivity|]); split; reflexivity.
    + pose proof (get_web3_no_signal (PROVIDER_URL cfg) (w_connect w)) as Hg1.
      pose proof (get_web3_no_stopped (PROVIDER_URL cfg) (w_connect w)) as Hg2.
      destruct (get_web3 (PROVIDER_URL cfg) (w_connect w)) as [[e|c] evs];
        cbn [snd] in Hg1, Hg2; eexists; (split; [reflexivity|]);
        rewrite count_ev_app, count_stopped_app, Hg1, Hg2; split; reflexivity.
  - pose proof (fetch_no_signal (w_query w) (w_draw w) (RETRY_LIMIT cfg)) as Hf1.
    pose proof (fetch_loop_no_stopped cfg (w_query w) (w_draw w) (RETRY_LIMIT cfg)
                  0 (Z.to_nat (RETRY_LIMIT cfg)) 0) as Hf2.
    fold (fetch_gas_prices cfg (w_query w) (w_draw w) (RETRY_LIMIT cfg)) in Hf2.
    destruct (fetch_gas_prices cfg (w_query w) (w_draw w) (RETRY_LIMIT cfg))
      as [[[r|]|e] evs]; cbn [snd] in Hf1, Hf2.
    + eexists; (split; [reflexivity|]). split; [exact Hf1|]. intros _; exact Hf2.
    + eexists; (split; [reflexivity|]).
      rewrite count_ev_app, count_stopped_app, Hf1, Hf2. split; reflexivity.
    + destruct (is_Exception e); eexists; (split; [reflexivity|]).
      * rewrite count_ev_app, count_stopped_app, Hf1, Hf2. split; reflexivity.
      * split; [exact Hf1|]. intros _; exact Hf2.
  - eexists; (split; [reflexivity|]); split; reflexivity.
  - destruct (kill_now s); eexists; (split; [reflexivity|]); split; reflexivity.
  - exists []. rewrite app_nil_r. split; [reflexivity|]. split; reflexivity.
  - exists []. rewrite app_nil_r. split; [reflexivity|]. split; reflexivity.
Qed.

Lemma step_no_exit (w : world) (s : mstate) :
  kill_now s = false -> m_pc s <> PExited -> m_pc (step cfg interval w s) <> PExited.
Proof.
  intros Hk Hp. unfold step, set_pc, set_web3.
  destruct (m_pc s) as [| | |[|k]| |e] eqn:Hpc; cbn [m_pc]; try rewrite Hk; cbn [m_pc];
    try discriminate; try congruence.
  - destruct (m_web3 s); [discriminate|].
    destruct (get_web3 (PROVIDER_URL cfg) (w_connect w)) as [[e|c] evs]; discriminate.
  - destruct (fetch_gas_prices cfg (w_query w) (w_draw w) (RETRY_LIMIT cfg))
      as [[[r|]|e] evs]; try discriminate.
    destruct (is_Exception e); discriminate.
Qed.

(** With the stop flag set at the [while] test or in the interval loop,
    a step makes no call and stays at such a point. *)
Lemma step_stop_ready (w : world) (s : mstate) :
  kill_now s = true -> stop_ready (m_pc s) = true ->
  stop_ready (m_pc (step cfg interval w s)) = true /\
  exists extra, m_log (step cfg interval w s) = m_log s ++ extra /\
                queries extra = O /\ sleeps extra = O.
Proof.
  intros Hk Hr. unfold step.
  destruct (m_pc s) as [| | |[|k]| |e] eqn:Hp; try discriminate Hr; try rewrite Hk.
  - split; [reflexivity|]. eexists; split; [reflexivity|]. split; reflexivity.
  - split; [reflexivity|]. eexists; split; [reflexivity|]. split; reflexivity.
  - split; [reflexivity|]. eexists; split; [reflexivity|]. split; reflexivity.
  - split; [rewrite Hp; reflexivity|]. exists []. rewrite app_nil_r. split; [reflexivity|]. split; reflexivity.
Qed.

Lemma run_stop_ready (l : list input) : forall s,
  kill_now s = true -> stop_ready (m_pc s) = true ->
  stop_ready (m_pc (run cfg interval s l)) = true /\
  exists extra, m_log (run cfg interval s l) = m_log s ++ extra /\
                queries extra = O /\ sleeps extra = O.
Proof.
  induction l as [|i l IH]; intros s Hk Hr.
  - split; [exact Hr|]. exists []. rewrite app_nil_r. split; [reflexivity|]. split; reflexivity.
  - rewrite run_cons. destruct i as [w|n]; cbn [exec].
    + destruct (step_stop_ready w s Hk Hr) as [Hr' [e1 [He1 [Hq1 Hs1]]]].
      destruct (IH (step cfg interval w s)) as [Hr'' [e2 [He2 [Hq2 Hs2]]]];
        [rewrite step_kill; exact Hk | exact Hr'|].
      split; [exact Hr''|]. exists (e1 ++ e2).
      rewrite He2, He1, app_assoc. split; [reflexivity|].
      unfold queries, sleeps in *. rewrite !filter_app_length. lia.
    + destruct (IH (handler n s)) as [Hr'' [e2 [He2 [Hq2 Hs2]]]]; [reflexivity | exact Hr|].
      split; [exact Hr''|]. exists ([Log INFO (MsgSignal n)] ++ e2).
      rewrite He2, app_assoc. split; [reflexivity|].
      unfold queries, sleeps in *. rewrite !filter_app_length. cbn. lia.
Qed.

(** Once [fetch_gas_prices] has raised, the monitor loop is gone: only
    signal handlers still write to the log. *)
Lemma run_aborted (e : exn) (l : list input) : forall s,
  m_pc s = PAborted e ->
  m_pc (run cfg interval s l) = PAborted e /\
  exists extra, m_log (run cfg interval s l) = m_log s ++ extra /\
                forallb is_signal_line extra = true.
Proof.
  induction l as [|i l IH]; intros s Hp.
  - split; [exact Hp|]. exists []. rewrite app_nil_r. split; reflexivity.
  - rewrite run_cons. destruct i as [w|n]; cbn [exec].
    + assert (Hs : step cfg interval w s = s) by (unfold step; rewrite Hp; reflexivity).
      rewrite Hs. exact (IH s Hp).
    + destruct (IH (handler n s)) as [Hp' [ex [Hex Hf]]]; [exact Hp|].
      split; [exact Hp'|]. exists (Log INFO (MsgSignal n) :: ex).
      rewrite Hex. cbn [handler m_log]. rewrite <- app_assoc. split; [reflexivity|].
      exact Hf.
Qed.

End MonitorMore.

(** ** Properties of the environment parsing in [Config] *)

Lemma drop_space_split (l : list Ascii.ascii) :
  exists p, l = p ++ drop_space l.
Proof.
  induction l as [|c l [p IH]]; [exists []; reflexivity|]. simpl.
  destruct (is_space c); [exists (c :: p); simpl; rewrite <- IH; reflexivity|].
  exists []; reflexivity.
Qed.

Lemma drop_space_head (l : list Ascii.ascii) :
  drop_space l = [] \/ exists c r, drop_space l = c :: r /\ is_space c = false.
Proof.
  induction l as [|c l IH]; [left; reflexivity|]. simpl.
  destruct (is_space c) eqn:Hc; [exact IH|]. right; exists c, l; auto.
Qed.

Lemma drop_space_fix (l : list Ascii.ascii) :
  (l = [] \/ exists c r, l = c :: r /\ is_space c = false) -> drop_space l = l.
Proof. intros [-> | [c [r [-> Hc]]]]; simpl; [reflexivity|]. rewrite Hc. reflexivity. Qed.

Lemma drop_space_idem (l : list Ascii.ascii) : drop_space (drop_space l) = drop_space l.
Proof. apply drop_space_fix, drop_space_head. Qed.

(** The list under [strip]: spaces dropped at both ends. *)
Lemma strip_core_ends (l : list Ascii.ascii) :
  let l' := rev (drop_space (rev (drop_space l))) in
  drop_space l' = l' /\ drop_space (rev l') = rev l'.
Proof.
  cbv zeta. set (A := drop_space l). set (B := drop_space (rev A)).
  rewrite rev_involutive. split; [|apply drop_space_idem].
  destruct (drop_space_split (rev A)) as [p Hp]. fold B in Hp.
  assert (HA : A = rev B ++ rev p).
  { rewrite <- rev_app_distr, <- Hp, rev_involutive. reflexivity. }
  apply drop_space_fix.
  destruct (rev B) as [|c r] eqn:HB; [left; reflexivity|]. right. exists c, r. split; [reflexivity|].
  destruct (drop_space_head l) as [H0 | [c' [r' [H1 H2]]]].
  - fold A in H0. rewrite H0 in HA. destruct p; discriminate HA.
  - fold A in H1. rewrite H1 in HA. cbn [app] in HA. injection HA as <- _. exact H2.
Qed.

Lemma strip_idem (s : string) : strip (strip s) = strip s.
Proof.
  unfold strip at 1 3. unfold strip.
  rewrite list_ascii_of_string_of_list_ascii.
  destruct (strip_core_ends (list_ascii_of_string s)) as [H1 H2]. cbv zeta in H1, H2.
  rewrite H1, H2, rev_involutive. reflexivity.
Qed.

Lemma lower_char_letters (c : Ascii.ascii) :
  (lower_char c = "t"%char -> In c (case_variants "t"%char)) /\
  (lower_char c = "r"%char -> In c (case_variants "r"%char)) /\
  (lower_char c = "u"%char -> In c (case_variants "u"%char)) /\
  (lower_char c = "e"%char -> In c (case_variants "e"%char)).
Proof.
  destruct c as [[] [] [] [] [] [] [] []]; vm_compute;
    repeat split; intros H; first [discriminate H | left; reflexivity | right; left; reflexivity].
Qed.

(** * Further properties of the program *)

(** [fetch_gas_prices] sleeps in total at most [MAX_TOTAL_BACKOFF] seconds,
    whatever the adapter answers, when delays and jitter draws are
    non-negative. *)
Theorem fetch_slept_within_budget (cfg : Config) (q : nat -> query) (draw : nat -> Q)
    (retries : Z) :
  0 <= MAX_TOTAL_BACKOFF cfg -> 0 <= RETRY_BASE_DELAY cfg -> 0 <= MAX_RETRY_DELAY cfg ->
  (forall i, 0 <= draw i)%Q ->
  (slept (snd (fetch_gas_prices cfg q draw retries)) <= inject_Z (MAX_TOTAL_BACKOFF cfg))%Q.
Proof.
  intros Ht Hb Hm Hd. unfold fetch_gas_prices.
  assert (H0 : (0 <= inject_Z (MAX_TOTAL_BACKOFF cfg))%Q).
  { change 0%Q with (inject_Z 0). rewrite <- Zle_Qle. exact Ht. }
  pose proof (fetch_loop_slept_le cfg q draw retries Hb Hm Hd (Z.to_nat retries) 0 0
                ltac:(lra)) as H. lra.
Qed.

Lemma fetch_slept_within_budget_witness :
  (slept (snd (fetch_gas_prices default_config always_timeout unit_draw 5))
   <= inject_Z (MAX_TOTAL_BACKOFF default_config))%Q.
Proof.
  apply fetch_slept_within_budget; try (vm_compute; intro H; discriminate H).
  intros i. vm_compute. intro H; discriminate H.
Defined.

(** An answer whose gas price is below its non-zero base fee makes
    [from_wei] raise [ValueError] on the negative priority fee, inside the
    [try]: when every attempt gets such an answer, [fetch_gas_prices] logs
    each attempt as an unexpected error and returns [None], with no output
    record. *)
Theorem fetch_below_base_fee_fails (cfg : Config) (q : nat -> query) (draw : nat -> Q)
    (retries : Z) :
  (forall i, exists g blk, q i = QOk g blk /\ 0 < base_fee_of blk /\ g < base_fee_of blk) ->
  let evs := snd (fetch_gas_prices cfg q draw retries) in
  fst (fetch_gas_prices cfg q draw retries) = FReturn None /\
  count_ev is_output evs = 0%nat /\ count_ev is_unexpected_line evs = queries evs.
Proof.
  intros Hq. cbv zeta.
  assert (Hfail : forall i, exists e, attempt_outcome (q i) = inl e /\ is_Exception e = true /\
                                      is_net_err e = false).
  { intros i. destruct (Hq i) as [g [blk [Hi [Hb Hg]]]].
    pose proof (make_sample_ok g blk) as Hok.
    destruct (make_sample g blk) as [e|r] eqn:Hm.
    - exists e. rewrite Hi. cbn [attempt_outcome].
      pose proof (make_sample_error g blk e Hm) as He. subst e.
      split; [exact Hm|]. split; reflexivity.
    - exfalso. unfold wei_ok in Hok. lia. }
  unfold fetch_gas_prices.
  destruct (fetch_loop_all_unexpected cfg q draw retries Hfail (Z.to_nat retries) 0 0)
    as [H1 H2].
  pose proof (fetch_loop_outcome_lines cfg q draw retries (Z.to_nat retries) 0 0) as H3.
  cbv zeta in H3. rewrite H1 in H3. destruct H3 as [H3 _].
  split; [exact H1|]. split; [exact H3 | exact H2].
Qed.

Lemma fetch_below_base_fee_fails_witness :
  let evs := snd (fetch_gas_prices default_config below_base_fee unit_draw 5) in
  fst (fetch_gas_prices default_config below_base_fee unit_draw 5) = FReturn None /\
  count_ev is_output evs = 0%nat /\ count_ev is_unexpected_line evs = queries evs.
Proof.
  apply fetch_below_base_fee_fails. intros i.
  exists (gwei 20), (mkBlock (Some (gwei 30)) (Some 1)).
  split; [reflexivity|]. split; vm_compute; reflexivity.
Defined.

(** [fetch_gas_prices] queries the adapter at most [retries] times. *)
Theorem fetch_queries_le_retries (cfg : Config) (q : nat -> query) (draw : nat -> Q)
    (retries : Z) :
  (queries (snd (fetch_gas_prices cfg q draw retries)) <= Z.to_nat retries)%nat.
Proof. apply fetch_loop_queries_le. Qed.

(** Every call ends in exactly one of: a returned sample with one output
    record and no "Failed" line; [None] with one "Failed" line and no
    output record; a raise with neither. *)
Theorem fetch_outcome_lines (cfg : Config) (q : nat -> query) (draw : nat -> Q)
    (retries : Z) :
  let evs := snd (fetch_gas_prices cfg q draw retries) in
  match fst (fetch_gas_prices cfg q draw retries) with
  | FReturn (Some _) => count_ev is_output evs = 1%nat /\ count_ev is_failed_line evs = 0%nat
  | FReturn None => count_ev is_output evs = 0%nat /\ count_ev is_failed_line evs = 1%nat
  | FRaise _ => count_ev is_output evs = 0%nat /\ count_ev is_failed_line evs = 0%nat
  end.
Proof. apply fetch_loop_outcome_lines. Qed.

(** When every attempt fails with an [Exception] and the budget is never
    reached, there are [retries] queries and [retries] sleeps: the code
    also sleeps after the last attempt, before giving up. *)
Theorem fetch_sleeps_after_last_attempt (cfg : Config) (q : nat -> query) (draw : nat -> Q)
    (retries : Z) :
  0 < RETRY_BASE_DELAY cfg -> 0 < MAX_RETRY_DELAY cfg -> 0 < MAX_TOTAL_BACKOFF cfg ->
  (forall i, 0 < draw i)%Q ->
  (forall i, exists e, q i = QRaise e /\ is_Exception e = true) ->
  (forall i, (1 <= i <= Z.to_nat retries)%nat ->
     total_after cfg draw 0 i 0 < inject_Z (MAX_TOTAL_BACKOFF cfg))%Q ->
  let evs := snd (fetch_gas_prices cfg q draw retries) in
  queries evs = Z.to_nat retries /\ sleeps evs = Z.to_nat retries.
Proof.
  intros Hb Hm Ht Hd Hfail Htot. cbv zeta. unfold fetch_gas_prices.
  assert (H0 : (0 < inject_Z (MAX_TOTAL_BACKOFF cfg))%Q).
  { change 0%Q with (inject_Z 0). rewrite <- Zlt_Qlt. exact Ht. }
  destruct (fetch_loop_all_fail_sleeps cfg q draw retries Hb Hm Hd Hfail
              (Z.to_nat retries) 0 0 H0 Htot) as [H1 H2].
  split; assumption.
Qed.

Lemma fetch_sleeps_after_last_attempt_witness :
  queries (snd (fetch_gas_prices default_config always_timeout unit_draw 5)) = 5%nat /\
  sleeps (snd (fetch_gas_prices default_config always_timeout unit_draw 5)) = 5%nat.
Proof.
  apply (fetch_sleeps_after_last_attempt default_config always_timeout unit_draw 5).
  - vm_compute. reflexivity.
  - vm_compute. reflexivity.
  - vm_compute. reflexivity.
  - intros i. vm_compute. reflexivity.
  - intros i. exists Timeout. split; reflexivity.
  - intros i Hi. destruct i as [|[|[|[|[|[|i]]]]]]; try lia; vm_compute; reflexivity.
Defined.

(** The result dict is built exactly when no [from_wei] call raises: the
    gas price and the base fee lie in [0 .. 2**256 - 1] and the gas price
    is not below a non-zero base fee; otherwise the attempt fails with
    [ValueError]. The base fee is reported exactly when it is non-zero,
    the priority fee exactly when the gas price is above it, and it is
    then the gas price minus the base fee in gwei. *)
Theorem make_sample_fees (g : Z) (blk : block) :
  let b := base_fee_of blk in
  match make_sample g blk with
  | inl e => e = ValueError /\ ~ wei_ok g b
  | inr s =>
    wei_ok g b /\ gas_price_gwei s == to_gwei g /\ block_number s = number blk /\
    match base_fee_gwei s, priority_fee_gwei s with
    | None, None => b = 0
    | Some x, None => b <> 0 /\ g = b /\ x = to_gwei b
    | Some x, Some y =>
      b <> 0 /\ b < g /\ x = to_gwei b /\ y = to_gwei (g - b) /\ y == gas_price_gwei s - x
    | None, Some _ => False
    end
  end.
Proof.
  cbv zeta. unfold make_sample, from_wei_if, from_wei, truthy, wei_ok. cbv zeta.
  set (b := base_fee_of blk). clearbody b.
  sample_cases.
Qed.

(** [OUTPUT_JSON] is on exactly when the variable is set to one of the
    sixteen case spellings of "true": no surrounding space, no other word. *)
Theorem resolve_output_json_true (env : option string) :
  resolve_output_json env = true <-> exists s, env = Some s /\ In s true_spellings.
Proof.
  split.
  - destruct env as [s|]; [|vm_compute; discriminate]. intros H. exists s. split; [reflexivity|].
    unfold resolve_output_json in H. apply String.eqb_eq in H.
    destruct s as [|a [|b [|c [|d [|x s]]]]]; cbn [lower] in H; try discriminate H.
    injection H as Ha Hb Hc Hd.
    destruct (lower_char_letters a) as [Ha' _]. specialize (Ha' Ha).
    destruct (lower_char_letters b) as [_ [Hb' _]]. specialize (Hb' Hb).
    destruct (lower_char_letters c) as [_ [_ [Hc' _]]]. specialize (Hc' Hc).
    destruct (lower_char_letters d) as [_ [_ [_ Hd']]]. specialize (Hd' Hd).
    unfold true_spellings. apply in_flat_map. exists a. split; [exact Ha'|].
    apply in_flat_map. exists b. split; [exact Hb'|].
    apply in_flat_map. exists c. split; [exact Hc'|].
    apply (in_map (fun d => String a (String b (String c (String d EmptyString))))).
    exact Hd'.
  - intros [s [-> H]]. vm_compute in H.
    repeat (destruct H as [<- | H]; [reflexivity|]). destruct H.
Qed.

(** The configured provider URL is never empty and has no surrounding
    whitespace, so the [not url] test of [get_web3] never holds for it:
    the warning is given exactly when it contains [YOUR_PROJECT_ID]. *)
Theorem resolve_provider_url_clean (env : option string) :
  let url := resolve_provider_url env in
  url <> EmptyString /\ strip url = url /\
  url_placeholder url = match String.index 0 "YOUR_PROJECT_ID" url with
                        | Some _ => true | None => false end.
Proof.
  cbv zeta. unfold resolve_provider_url.
  set (v := strip (match env with Some s => s | None => EmptyString end)).
  assert (Hne : (if String.eqb v "" then PROVIDER_URL default_config else v) <> EmptyString).
  { destruct (String.eqb_spec v "") as [_|H]; [discriminate|exact H]. }
  split; [exact Hne|]. split.
  - destruct (String.eqb v ""); [vm_compute; reflexivity|]. apply strip_idem.
  - unfold url_placeholder. apply String.eqb_neq in Hne. rewrite Hne. reflexivity.
Qed.

(** Without a signal the monitor loop never stops: the stop flag stays
    clear, the loop never exits and no "stopped" line is written. *)
Theorem monitor_runs_until_signal (cfg : Config) (interval : Z) (l : list input) :
  forallb is_step l = true ->
  let s := run cfg interval init l in
  kill_now s = false /\ m_pc s <> PExited /\ count_stopped (m_log s) = 0%nat.
Proof.
  cbv zeta. intros Hl.
  assert (G : forall l s, forallb is_step l = true ->
            kill_now s = false -> m_pc s <> PExited -> count_stopped (m_log s) = 0%nat ->
            let s' := run cfg interval s l in
            kill_now s' = false /\ m_pc s' <> PExited /\ count_stopped (m_log s') = 0%nat).
  { induction l0 as [|i l0 IH]; intros s Hl0 Hk Hp Hc; [split; auto|].
    destruct i as [w|n]; [|discriminate Hl0].
    rewrite run_cons. cbn [exec]. apply IH; [exact Hl0 | rewrite step_kill; exact Hk | |].
    - apply step_no_exit; assumption.
    - destruct (step_log cfg interval w s) as [ex [Hex [_ Hst]]].
      rewrite Hex, count_stopped_app, Hc, (Hst Hk). reflexivity. }
  apply G; [exact Hl | reflexivity | discriminate | reflexivity].
Qed.

Lemma monitor_runs_until_signal_witness :
  let s := run default_config 10 init (repeat (IStep down_world) 30) in
  kill_now s = false /\ m_pc s <> PExited /\ count_stopped (m_log s) = 0%nat.
Proof. apply monitor_runs_until_signal. reflexivity. Defined.

(** The log holds one "termination signal" line per signal received, and
    none written by anything else. *)
Theorem signal_lines_counted (cfg : Config) (interval : Z) (l : list input) (s : mstate) :
  count_ev is_signal_line (m_log (run cfg interval s l))
  = (count_ev is_signal_line (m_log s) + List.length (filter is_signal l))%nat.
Proof.
  revert s. induction l as [|i l IH]; intros s; [cbn; lia|].
  rewrite run_cons. destruct i as [w|n]; cbn [exec filter is_signal is_step negb].
  - rewrite IH. destruct (step_log cfg interval w s) as [ex [Hex [Hs _]]].
    rewrite Hex, count_ev_app, Hs. lia.
  - rewrite IH. cbn [handler m_log]. rewrite count_ev_app. cbn. lia.
Qed.

(** A stop request seen at the [while] test or in the interval loop is
    honoured at once: no further query or sleep, and the loop has exited
    after two more steps. *)
Theorem stop_request_honoured (cfg : Config) (interval : Z) (s : mstate) (l : list input) :
  kill_now s = true -> stop_ready (m_pc s) = true ->
  let s' := run cfg interval s l in
  (exists extra, m_log s' = m_log s ++ extra /\ queries extra = 0%nat /\ sleeps extra = 0%nat) /\
  ((2 <= steps_in l)%nat -> m_pc s' = PExited).
Proof.
  intros Hk Hr. cbv zeta.
  destruct (run_stop_ready cfg interval l s Hk Hr) as [Hr' Hex].
  split; [exact Hex|]. intros Hl.
  destruct (run_dist cfg interval l s Hk) as [_ Hd].
  assert (H2 : (dist (m_pc s) <= 2)%nat) by (destruct (m_pc s); simpl in *; try lia; discriminate).
  destruct (m_pc (run cfg interval s l)); simpl in Hd, Hr'; try discriminate; try lia.
  reflexivity.
Qed.

Lemma stop_request_honoured_witness :
  let s0 := mkState (PSleep 7) (Some 7%nat) true [] in
  let s' := run default_config 10 s0 [IStep flaky_world; ISignal 2; IStep flaky_world] in
  (exists extra, m_log s' = m_log s0 ++ extra /\ queries extra = 0%nat /\ sleeps extra = 0%nat) /\
  ((2 <= steps_in [IStep flaky_world; ISignal 2; IStep flaky_world])%nat -> m_pc s' = PExited).
Proof. apply stop_request_honoured; reflexivity. Defined.

(** A non-[Exception] raised by the adapter on the first attempt ends the
    monitor loop for good: it never returns to the loop, never writes the
    "stopped" line, and only signal lines follow the failed query. *)
Theorem fetch_raise_ends_monitor (cfg : Config) (interval : Z) (w : world) (s : mstate)
    (e : exn) (l : list input) :
  m_pc s = PFetch -> 0 < RETRY_LIMIT cfg ->
  w_query w 0 = QRaise e -> is_Exception e = false ->
  let s' := run cfg interval (step cfg interval w s) l in
  m_pc s' = PAborted e /\
  exists extra, m_log s' = m_log s ++ Query 0 :: extra /\ forallb is_signal_line extra = true.
Proof.
  intros Hp Hr Hq He. cbv zeta.
  assert (Hf : fetch_gas_prices cfg (w_query w) (w_draw w) (RETRY_LIMIT cfg)
               = (FRaise e, [Query 0])).
  { unfold fetch_gas_prices.
    destruct (Z.to_nat (RETRY_LIMIT cfg)) as [|f] eqn:Hn; [lia|].
    apply fetch_loop_other; [apply outcome_raise; exact Hq | exact He]. }
  assert (Hs : step cfg interval w s = set_pc s (PAborted e) [Query 0]).
  { unfold step. rewrite Hp, Hf, He. reflexivity. }
  rewrite Hs.
  destruct (run_aborted cfg interval e l (set_pc s (PAborted e) [Query 0]) eq_refl)
    as [Hp' [ex [Hex Hsig]]].
  split; [exact Hp'|]. exists ex. rewrite Hex. unfold set_pc. cbn [m_log].
  rewrite <- app_assoc. split; [reflexivity | exact Hsig].
Qed.

Lemma fetch_raise_ends_monitor_witness :
  let w := mkWorld (Some 7%nat) always_interrupt unit_draw in
  let s := mkState PFetch (Some 7%nat) false [] in
  let s' := run default_config 10 (step default_config 10 w s) [ISignal 2; IStep w] in
  m_pc s' = PAborted KeyboardInterrupt /\
  exists extra, m_log s' = m_log s ++ Query 0 :: extra /\ forallb is_signal_line extra = true.
Proof. apply fetch_raise_ends_monitor; reflexivity. Defined.

(** A cycle on a live connection whose first attempt gives a sample
    (the adapter answers and no [from_wei] call raises) takes
    [4 + interval] steps: one query, one output record, then exactly
    [interval] one-second sleeps (none at all when [interval <= 0]), and
    it comes back to the [while] test with the same connection. *)
Theorem healthy_cycle (cfg : Config) (interval : Z) (w : world) (s : mstate) (c : conn)
    (g : Z) (blk : block) (r : sample) :
  m_pc s = PWhile -> kill_now s = false -> m_web3 s = Some c ->
  0 < RETRY_LIMIT cfg -> w_query w 0 = QOk g blk -> make_sample g blk = inr r ->
  let s' := run cfg interval s (repeat (IStep w) (4 + Z.to_nat interval)) in
  m_pc s' = PWhile /\ m_web3 s' = Some c /\ kill_now s' = false /\
  m_log s' = m_log s ++ [Query 0; emit cfg r] ++ repeat (Sleep 1) (Z.to_nat interval).
Proof.
  intros Hp Hk Hc Hr Hq Hm. cbv zeta.
  assert (Hf : fetch_gas_prices cfg (w_query w) (w_draw w) (RETRY_LIMIT cfg)
               = (FReturn (Some r), [Query 0; emit cfg r])).
  { unfold fetch_gas_prices.
    destruct (Z.to_nat (RETRY_LIMIT cfg)) as [|f] eqn:Hn; [lia|].
    cbn [fetch_loop]. rewrite Hq. cbn [attempt_outcome]. rewrite Hm. reflexivity. }
  destruct s as [p w3 k lg]. cbn [m_pc kill_now m_web3] in Hp, Hk, Hc. subst p k w3.
  replace (repeat (IStep w) (4 + Z.to_nat interval))
    with ([IStep w; IStep w; IStep w] ++ repeat (IStep w) (Z.to_nat interval) ++ [IStep w])
    by (cbn [app repeat Nat.add]; f_equal; f_equal; f_equal;
        rewrite <- repeat_cons; reflexivity).
  rewrite !run_app.
  assert (H3 : run cfg interval (mkState PWhile (Some c) false lg) [IStep w; IStep w; IStep w]
               = mkState (PSleep (Z.to_nat interval)) (Some c) false
                   (lg ++ [Query 0; emit cfg r])).
  { rewrite !run_cons. change (run cfg interval ?x []) with x. cbn [exec].
    change (step cfg interval w (mkState PWhile (Some c) false lg))
      with (mkState PConnect (Some c) false (lg ++ [])).
    change (step cfg interval w (mkState PConnect (Some c) false (lg ++ [])))
      with (mkState PFetch (Some c) false ((lg ++ []) ++ [])).
    unfold step. cbn [m_pc]. rewrite Hf. unfold set_pc, sleep_loop. cbn [m_pc m_web3 kill_now m_log].
    rewrite !app_nil_r. reflexivity. }
  rewrite H3, (sleep_loop_run cfg interval w (Z.to_nat interval)).
  cbn. rewrite !app_nil_r, <- !app_assoc. repeat split; reflexivity.
Qed.

Lemma healthy_cycle_witness :
  let w := mkWorld (Some 7%nat) answer_equal_fees unit_draw in
  let s := mkState PWhile (Some 7%nat) false [] in
  let s' := run default_config 0 s (repeat (IStep w) (4 + Z.to_nat 0)) in
  m_pc s' = PWhile /\ m_web3 s' = Some 7%nat /\ kill_now s' = false /\
  m_log s' = m_log s ++ [Query 0; emit default_config
                           (mkSample (to_gwei (gwei 30)) (Some (to_gwei (gwei 30))) None (Some 1))]
             ++ repeat (Sleep 1) (Z.to_nat 0).
Proof.
  apply (healthy_cycle default_config 0 _ _ _ (gwei 30) equal_fees_block); vm_compute; reflexivity.
Defined.

(** [exponential_backoff] within the budget: the returned total grows by
    exactly the time slept and stays within [MAX_TOTAL_BACKOFF]; it reaches
    the budget (the [break] of [fetch_gas_prices]) exactly when the
    jittered delay covers what is left of it. *)
Theorem exponential_backoff_total (cfg : Config) (j : Q) (a : nat) (tw : Q) :
  0 <= RETRY_BASE_DELAY cfg -> 0 <= MAX_RETRY_DELAY cfg -> (0 <= j)%Q ->
  (tw <= inject_Z (MAX_TOTAL_BACKOFF cfg))%Q ->
  let tw' := fst (exponential_backoff cfg j a tw) in
  slept (snd (exponential_backoff cfg j a tw)) == tw' - tw /\
  (tw <= tw' <= inject_Z (MAX_TOTAL_BACKOFF cfg))%Q /\
  ((inject_Z (MAX_TOTAL_BACKOFF cfg) <= tw')%Q <->
   (inject_Z (MAX_TOTAL_BACKOFF cfg) - tw <= inject_Z (backoff_delay cfg a) * j)%Q).
Proof.
  intros Hb Hm Hj Ht. cbv zeta.
  assert (Hd : (0 <= inject_Z (backoff_delay cfg a) * j)%Q).
  { apply Qmult_le_0_compat; [|exact Hj].
    change 0%Q with (inject_Z 0). rewrite <- Zle_Qle.
    unfold backoff_delay. apply Z.min_glb; [|exact Hm].
    apply Z.mul_nonneg_nonneg; [exact Hb|]. apply Z.pow_nonneg. lia. }
  assert (Hf : fst (exponential_backoff cfg j a tw) = (tw + wait_time cfg j a tw)%Q)
    by reflexivity.
  assert (Hw : (wait_time cfg j a tw == inject_Z (backoff_delay cfg a) * j)%Q /\
               (inject_Z (backoff_delay cfg a) * j <= inject_Z (MAX_TOTAL_BACKOFF cfg) - tw)%Q \/
               (wait_time cfg j a tw == inject_Z (MAX_TOTAL_BACKOFF cfg) - tw)%Q /\
               (inject_Z (MAX_TOTAL_BACKOFF cfg) - tw <= inject_Z (backoff_delay cfg a) * j)%Q).
  { unfold wait_time.
    destruct (Qlt_le_dec (inject_Z (backoff_delay cfg a) * j)
                         (inject_Z (MAX_TOTAL_BACKOFF cfg) - tw)) as [H|H].
    - left. split; [apply Q.min_l|]; lra.
    - right. split; [apply Q.min_r|]; lra. }
  assert (Hs : slept (snd (exponential_backoff cfg j a tw)) == wait_time cfg j a tw).
  { unfold exponential_backoff. cbn [snd].
    destruct (Qlt_le_dec 0 (wait_time cfg j a tw)) as [H|H]; cbn [slept]; [lra|].
    destruct Hw as [[Hw1 _]|[Hw1 _]]; lra. }
  rewrite Hf, Hs. destruct Hw as [[Hw1 Hw2]|[Hw1 Hw2]]; repeat split; intros; lra.
Qed.

Lemma exponential_backoff_total_witness :
  let tw' := fst (exponential_backoff default_config 1 2 0) in
  slept (snd (exponential_backoff default_config 1 2 0)) == tw' - 0 /\
  (0 <= tw' <= inject_Z (MAX_TOTAL_BACKOFF default_config))%Q /\
  ((inject_Z (MAX_TOTAL_BACKOFF default_config) <= tw')%Q <->
   (inject_Z (MAX_TOTAL_BACKOFF default_config) - 0 <= inject_Z (backoff_delay default_config 2) * 1)%Q).
Proof.
  apply exponential_backoff_total; vm_compute; intro H; discriminate H.
Defined.
